(** * ResNet builder (models/resnet/resnet.hpp): shape inference and
      residual-block assembly

    A shallow embedding of the private helpers of the class template
    [ResNet<OutputLayerType, InitializationRuleType, ResNetVersion>]:
    [ConvOutSize], [ConvolutionBlock], [ReLULayer], [BasicBlock],
    [BottleNeck], [MakeLayer] and the table [ResNetConfig].

    - [size_t] is a 64-bit unsigned integer: a [Z] with the wrap-around
      written out ([SizeT.wrap]).
    - The two places where the source goes through [double]
      ([std::floor] in [ConvOutSize], [baseWidth / 64.0] in [BottleNeck])
      are modelled with [Binary64.round53], round-to-nearest-even on 53
      significant bits.
    - An integer division by zero and a conversion from [double] to [int]
      of a value that does not fit are undefined in the source and are the
      result [None].  The conversion of the [double] [2^64] to [size_t], the
      only out-of-range conversion [ConvOutSize] can reach, is undefined
      too; the code compiled for x86-64 yields 0 there, and so does the
      model ([Binary64.to_size_t]).
    - The member fields the helpers mutate are a record threaded through a
      state-and-failure monad.
    - [mlpack::Log::Info] output is informational only and is not modelled.
    - The constructor is declared in resnet.hpp and defined in
      resnet_impl.hpp, which is not among the sources: it is modelled from
      the specification (sections 4.6 and 7), with the stem's padding and
      pooling, which the specification leaves open, as parameters. *)

From Stdlib Require Import ZArith List Bool String Lia.
Import ListNotations.
Local Open Scope Z_scope.

(** ** 64-bit unsigned arithmetic *)

Module SizeT.

Definition modulus : Z := 2 ^ 64.

Definition wrap (x : Z) : Z := x mod modulus.

Definition in_range (x : Z) : Prop := 0 <= x < modulus.

Definition add (a b : Z) : Z := wrap (a + b).
Definition sub (a b : Z) : Z := wrap (a - b).
Definition mul (a b : Z) : Z := wrap (a * b).

(** Unsigned division; dividing by zero is undefined. *)
Definition div (a b : Z) : option Z :=
  if b =? 0 then None else Some (a / b).

End SizeT.

(** ** The part of IEEE 754 binary64 the builder goes through

    Every [double] the source computes is a non-negative multiple of
    [2^-6] far below the overflow threshold, so a value is represented by the
    integer it is a scaled copy of, and the only operation needed is
    rounding an integer to 53 significant bits (round to nearest, ties to
    even: the default rounding mode). *)

Module Binary64.

Definition precision : Z := 53.

Definition round53 (n : Z) : Z :=
  if n <? 2 ^ precision then n
  else
    let e := Z.log2 n - (precision - 1) in
    let m := n / 2 ^ e in
    let r := n mod 2 ^ e in
    let half := 2 ^ (e - 1) in
    if r <? half then m * 2 ^ e
    else if half <? r then (m + 1) * 2 ^ e
    else if Z.even m then m * 2 ^ e
    else (m + 1) * 2 ^ e.

(** The conversion of a non-negative integral [double] to [size_t].  Below
    [2^64] it is the value.  From [2^64] on it is undefined in C++; the
    conversion sequence compiled for x86-64 (subtract [2^63], convert, flip
    the top bit) yields 0 for [2^64], the only such value the builder
    reaches. *)
Definition to_size_t (x : Z) : Z :=
  if x <? 2 ^ 64 then x else 0.

End Binary64.

(** ** ShapeTracker: [ConvOutSize] (resnet.hpp:368-374)

    [return std::floor((size - k + 2 * padding) / s) + 1;]

    The quotient is an unsigned integer division; [std::floor] applied to an
    integer converts it to [double] (and is then the identity), the addition
    of [1] is a [double] addition, and the [return] converts the [double]
    back to [size_t] ([Binary64.to_size_t]).  The only failure is the
    division by zero. *)

Definition ConvOutSize (size k s padding : Z) : option Z :=
  match SizeT.div (SizeT.add (SizeT.sub size k) (SizeT.mul 2 padding)) s with
  | None => None
  | Some q =>
      let floored := Binary64.round53 q in
      let r := Binary64.round53 (floored + 1) in
      Some (Binary64.to_size_t r)
  end.

(** The formula of the specification, over the integers, with truncating
    division. *)
Definition ConvOutSize_formula (size k s padding : Z) : Z :=
  Z.quot (size - k + 2 * padding) s + 1.

(** ** The emitted layer graph

    The nodes the builder creates with [new] and hands to a container with
    [Add].  A container owns its children and every node is complete by the
    time it is added to its parent, so the graph is a tree of values.  A
    [Convolution] records the input width and height it is constructed
    with; the epsilon [1e-5] of a [BatchNorm] and the two flags of an
    [AddMerge] are the same at every use and are left out.

    [Pooling], [GlobalAveragePooling], [Linear] and [OutputActivation] are
    the nodes of the stem and of the classification head, which only the
    constructor creates. *)

#[local] Set Warnings "-register-all".

Inductive Layer : Type :=
| Convolution (inSize outSize kernelWidth kernelHeight
               strideWidth strideHeight padW padH inputWidth inputHeight : Z)
| BatchNorm (size : Z)
| ReLU
| IdentityLayer
| Sequential (children : list Layer)
| AddMerge (children : list Layer)
| Pooling
| GlobalAveragePooling
| Linear (outSize : Z)
| OutputActivation.

(** ** The builder's fields *)

Record ResNetState : Type := mkState {
  resNet : list Layer;
  inputChannel : Z;
  inputWidth : Z;
  inputHeight : Z;
  numClasses : Z;
  downSampleInputWidth : Z;
  downSampleInputHeight : Z;
  downSampleInSize : Z;
  numBlockArray : Z * Z * Z * Z;
  builderBlock : string
}.

(** [basicBlockExpansion] and [bottleNeckExpansion] have default member
    initialisers and are never assigned. *)
Definition basicBlockExpansion : Z := 1.
Definition bottleNeckExpansion : Z := 4.

Definition set_resNet (v : list Layer) (st : ResNetState) : ResNetState :=
  mkState v (inputChannel st) (inputWidth st) (inputHeight st)
    (numClasses st) (downSampleInputWidth st) (downSampleInputHeight st)
    (downSampleInSize st) (numBlockArray st) (builderBlock st).

Definition set_inputWidth (v : Z) (st : ResNetState) : ResNetState :=
  mkState (resNet st) (inputChannel st) v (inputHeight st)
    (numClasses st) (downSampleInputWidth st) (downSampleInputHeight st)
    (downSampleInSize st) (numBlockArray st) (builderBlock st).

Definition set_inputHeight (v : Z) (st : ResNetState) : ResNetState :=
  mkState (resNet st) (inputChannel st) (inputWidth st) v
    (numClasses st) (downSampleInputWidth st) (downSampleInputHeight st)
    (downSampleInSize st) (numBlockArray st) (builderBlock st).

Definition set_downSampleInputWidth (v : Z) (st : ResNetState)
  : ResNetState :=
  mkState (resNet st) (inputChannel st) (inputWidth st) (inputHeight st)
    (numClasses st) v (downSampleInputHeight st)
    (downSampleInSize st) (numBlockArray st) (builderBlock st).

Definition set_downSampleInputHeight (v : Z) (st : ResNetState)
  : ResNetState :=
  mkState (resNet st) (inputChannel st) (inputWidth st) (inputHeight st)
    (numClasses st) (downSampleInputWidth st) v
    (downSampleInSize st) (numBlockArray st) (builderBlock st).

Definition set_downSampleInSize (v : Z) (st : ResNetState) : ResNetState :=
  mkState (resNet st) (inputChannel st) (inputWidth st) (inputHeight st)
    (numClasses st) (downSampleInputWidth st) (downSampleInputHeight st)
    v (numBlockArray st) (builderBlock st).

(** ** State and undefined behaviour *)

Definition M (A : Type) : Type := ResNetState -> option (A * ResNetState).

Definition ret {A : Type} (a : A) : M A := fun st => Some (a, st).

Definition bind {A B : Type} (m : M A) (k : A -> M B) : M B :=
  fun st =>
    match m st with
    | Some (a, st') => k a st'
    | None => None
    end.

Definition get {A : Type} (field : ResNetState -> A) : M A :=
  fun st => Some (field st, st).

Definition put (update : ResNetState -> ResNetState) : M unit :=
  fun st => Some (tt, update st).

Definition defined {A : Type} (o : option A) : M A :=
  fun st =>
    match o with
    | Some a => Some (a, st)
    | None => None
    end.

Declare Scope builder_scope.
Delimit Scope builder_scope with builder.
Notation "x <- m ;; k" := (bind m (fun x => k))
  (at level 61, m at next level, right associativity) : builder_scope.
Notation "m ;; k" := (bind m (fun _ => k))
  (at level 61, right associativity) : builder_scope.
Local Open Scope builder_scope.

(** [n] runs of a loop body. *)
Fixpoint times (n : nat) (body : M unit) : M unit :=
  match n with
  | O => ret tt
  | S n' => body ;; times n' body
  end.

(** ** [ConvolutionBlock] (resnet.hpp:117-159)

    [baseLayer] is the list of children of the container the block is added
    to; the result is that list after [baseLayer->Add(tempBaseLayer)].  The
    C++ default arguments (stride 1, kernel 3, padding 1, no downsample,
    override shape 0) are written out at each call. *)

Definition ConvolutionBlock (baseLayer : list Layer)
    (inSize outSize strideWidth strideHeight kernelWidth kernelHeight
     padW padH : Z) (downSample : bool)
    (downSampleInputWidth' downSampleInputHeight' : Z) : M (list Layer) :=
  (if downSample
   then put (set_inputWidth downSampleInputWidth') ;;
        put (set_inputHeight downSampleInputHeight')
   else ret tt) ;;
  w <- get inputWidth ;;
  h <- get inputHeight ;;
  let tempBaseLayer :=
    [Convolution inSize outSize kernelWidth kernelHeight
       strideWidth strideHeight padW padH w h] in
  w' <- defined (ConvOutSize w kernelWidth strideWidth padW) ;;
  put (set_inputWidth w') ;;
  h' <- defined (ConvOutSize h kernelHeight strideHeight padH) ;;
  put (set_inputHeight h') ;;
  let tempBaseLayer := tempBaseLayer ++ [BatchNorm outSize] in
  ret (baseLayer ++ [Sequential tempBaseLayer]).

(** ** [ReLULayer] (resnet.hpp:166-170) *)

Definition ReLULayer (baseLayer : list Layer) : list Layer :=
  baseLayer ++ [ReLU].

(** [resNet.Add(layer)] *)
Definition resNet_Add (l : Layer) : M unit :=
  net <- get resNet ;; put (set_resNet (net ++ [l])).

(** ** [BasicBlock] (resnet.hpp:207-240) *)

Definition BasicBlock (inSize outSize strideWidth strideHeight : Z)
    (downSample : bool) : M unit :=
  w <- get inputWidth ;;
  put (set_downSampleInputWidth w) ;;
  h <- get inputHeight ;;
  put (set_downSampleInputHeight h) ;;
  let basicBlock : list Layer := [] in
  let resBlock : list Layer := [] in
  let sequentialBlock : list Layer := [] in
  sequentialBlock <- ConvolutionBlock sequentialBlock inSize outSize
                       strideWidth strideHeight 3 3 1 1 false 0 0 ;;
  let sequentialBlock := ReLULayer sequentialBlock in
  sequentialBlock <- ConvolutionBlock sequentialBlock outSize outSize
                       1 1 3 3 1 1 false 0 0 ;;
  let resBlock := resBlock ++ [Sequential sequentialBlock] in
  resBlock <-
    (if downSample
     then dw <- get downSampleInputWidth ;;
          dh <- get downSampleInputHeight ;;
          ConvolutionBlock resBlock inSize outSize strideWidth strideHeight
            1 1 0 0 true dw dh
     else ret (resBlock ++ [IdentityLayer])) ;;
  let basicBlock := basicBlock ++ [AddMerge resBlock] in
  let basicBlock := ReLULayer basicBlock in
  resNet_Add (Sequential basicBlock).

(** ** [BottleNeck] (resnet.hpp:283-322)

    [size_t width = int((baseWidth / 64.0) * outSize) * groups;]

    [baseWidth] and [outSize] are converted to [double]; dividing by [64.0]
    is exact, so [64 * (baseWidth / 64.0) * outSize] is the rounded product of
    the two converted values (scaling by a power of two commutes with
    rounding).  [int(...)] truncates, and is undefined when the truncated
    value does not fit an [int] (32 bits); the product with [groups] is a
    [size_t] product. *)

Definition bottleNeckWidth (baseWidth outSize groups : Z) : option Z :=
  let scaled :=
    Binary64.round53 (Binary64.round53 baseWidth * Binary64.round53 outSize) in
  let truncated := scaled / 64 in
  if truncated <? 2 ^ 31 then Some (SizeT.mul truncated groups) else None.

Definition BottleNeck (inSize outSize strideWidth strideHeight : Z)
    (downSample : bool) (baseWidth groups : Z) : M unit :=
  w <- get inputWidth ;;
  put (set_downSampleInputWidth w) ;;
  h <- get inputHeight ;;
  put (set_downSampleInputHeight h) ;;
  width <- defined (bottleNeckWidth baseWidth outSize groups) ;;
  let basicBlock : list Layer := [] in
  let resBlock : list Layer := [] in
  let sequentialBlock : list Layer := [] in
  sequentialBlock <- ConvolutionBlock sequentialBlock inSize width
                       1 1 1 1 0 0 false 0 0 ;;
  let sequentialBlock := ReLULayer sequentialBlock in
  sequentialBlock <- ConvolutionBlock sequentialBlock width width
                       strideWidth strideHeight 3 3 1 1 false 0 0 ;;
  let sequentialBlock := ReLULayer sequentialBlock in
  sequentialBlock <- ConvolutionBlock sequentialBlock width
                       (SizeT.mul outSize bottleNeckExpansion)
                       1 1 1 1 0 0 false 0 0 ;;
  let resBlock := resBlock ++ [Sequential sequentialBlock] in
  resBlock <-
    (if downSample
     then dw <- get downSampleInputWidth ;;
          dh <- get downSampleInputHeight ;;
          ConvolutionBlock resBlock inSize
            (SizeT.mul outSize bottleNeckExpansion)
            strideWidth strideHeight 1 1 0 0 true dw dh
     else ret (resBlock ++ [IdentityLayer])) ;;
  let basicBlock := basicBlock ++ [AddMerge resBlock] in
  let basicBlock := ReLULayer basicBlock in
  resNet_Add (Sequential basicBlock).

(** ** [MakeLayer] (resnet.hpp:332-357)

    [for (size_t i = 1; i != numBlocks; ++i)] runs its body
    [(numBlocks - 1) mod 2^64] times: [i] counts up from 1, wrapping, until
    it meets [numBlocks]. *)

Definition loopCount (numBlocks : Z) : nat :=
  Z.to_nat (SizeT.sub numBlocks 1).

Definition MakeLayer (block : string) (outSize numBlocks stride : Z)
  : M unit :=
  if String.eqb block "basicblock" then
    tracked <- get downSampleInSize ;;
    let downSample :=
      negb (stride =? 1)
      || negb (tracked =? SizeT.mul outSize basicBlockExpansion) in
    BasicBlock tracked (SizeT.mul outSize basicBlockExpansion)
      stride stride downSample ;;
    put (set_downSampleInSize (SizeT.mul outSize basicBlockExpansion)) ;;
    times (loopCount numBlocks)
      (tracked' <- get downSampleInSize ;;
       BasicBlock tracked' outSize 1 1 false)
  else
    tracked <- get downSampleInSize ;;
    let downSample :=
      negb (stride =? 1)
      || negb (tracked =? SizeT.mul outSize bottleNeckExpansion) in
    BottleNeck tracked outSize stride stride downSample 64 1 ;;
    put (set_downSampleInSize (SizeT.mul outSize bottleNeckExpansion)) ;;
    times (loopCount numBlocks)
      (tracked' <- get downSampleInSize ;;
       BottleNeck tracked' outSize 1 1 false 64 1).

(** ** [ResNetConfig] (resnet.hpp:407-414)

    [std::map<size_t, std::map<std::string, std::array<size_t, 4>>>] *)

Definition ResNetConfig : list (Z * list (string * (Z * Z * Z * Z))) :=
  [ (18,  [("basicblock"%string, (2, 2, 2, 2))]);
    (34,  [("basicblock"%string, (3, 4, 6, 3))]);
    (50,  [("bottleneck"%string, (3, 4, 6, 3))]);
    (101, [("bottleneck"%string, (3, 4, 23, 3))]);
    (152, [("bottleneck"%string, (3, 8, 36, 3))]) ].

Fixpoint map_find {V : Type} (key : Z) (m : list (Z * V)) : option V :=
  match m with
  | [] => None
  | (k, v) :: rest => if k =? key then Some v else map_find key rest
  end.

Definition option_bind {A B : Type} (o : option A) (f : A -> option B)
  : option B :=
  match o with
  | Some a => f a
  | None => None
  end.

(** ** The constructor *)

(** Modelled from the spec: the construction errors of section 7 (the
    constructor's definition, resnet_impl.hpp, is missing). *)
Inductive BuildError : Type :=
| UnsupportedVersionError
| InvalidConfigurationError.

(** What a construction ends in: a built network, a reported error together
    with the builder's fields at that moment, or undefined behaviour. *)
Inductive Outcome : Type :=
| Built (st : ResNetState)
| Failed (e : BuildError) (st : ResNetState)
| UndefinedBehaviour.

Section Constructor.

(** The padding of the stem convolution and the output size of the stem's
    pooling reduction belong to the constructor's definition
    (resnet_impl.hpp), which is not among the sources, and the
    specification leaves both open: they are parameters. *)
Variable stemPadding : Z.
Variable poolOutSize : Z -> option Z.

(** Modelled from the spec: section 4.6, step 2 (missing
    resnet_impl.hpp): the shape state from the inputs, an empty network and
    the tracked channel count 64, the default member initialiser of
    [downSampleInSize] (resnet.hpp:404).  The snapshot fields, the count
    array and the block name are not initialised yet. *)
Definition initialState (inputChannel' inputWidth' inputHeight'
    numClasses' : Z) : ResNetState :=
  mkState [] inputChannel' inputWidth' inputHeight' numClasses'
    0 0 64 (0, 0, 0, 0) EmptyString.

(** Modelled from the spec: the stem of section 4.6, step 3 (the
    constructor's body is in resnet_impl.hpp, which is missing): one 7x7
    stride-2 convolution from 3 to 64 channels, a normalization, an
    activation and a pooling reduction, each followed by the update of the
    tracked shape. *)
Definition Stem : M unit :=
  w <- get inputWidth ;;
  h <- get inputHeight ;;
  resNet_Add (Convolution 3 64 7 7 2 2 stemPadding stemPadding w h) ;;
  w' <- defined (ConvOutSize w 7 2 stemPadding) ;;
  put (set_inputWidth w') ;;
  h' <- defined (ConvOutSize h 7 2 stemPadding) ;;
  put (set_inputHeight h') ;;
  resNet_Add (BatchNorm 64) ;;
  resNet_Add ReLU ;;
  resNet_Add Pooling ;;
  w <- get inputWidth ;;
  w' <- defined (poolOutSize w) ;;
  put (set_inputWidth w') ;;
  h <- get inputHeight ;;
  h' <- defined (poolOutSize h) ;;
  put (set_inputHeight h').

(** Modelled from the spec: section 4.6, step 4 (missing resnet_impl.hpp):
    four [MakeLayer] calls with output-channel bases 64, 128, 256, 512 and
    strides 1, 2, 2, 2, the i-th with the i-th count of the row. *)
Definition Stages : M unit :=
  block <- get builderBlock ;;
  counts <- get numBlockArray ;;
  let '(n0, n1, n2, n3) := counts in
  MakeLayer block 64 n0 1 ;;
  MakeLayer block 128 n1 2 ;;
  MakeLayer block 256 n2 2 ;;
  MakeLayer block 512 n3 2.

(** Modelled from the spec: section 4.6, step 5 (missing resnet_impl.hpp):
    a global-average-pool reduction, a fully-connected projection to
    [numClasses] outputs and a final classification activation. *)
Definition Head (includeTop : bool) : M unit :=
  if includeTop then
    classes <- get numClasses ;;
    resNet_Add GlobalAveragePooling ;;
    resNet_Add (Linear classes) ;;
    resNet_Add OutputActivation
  else ret tt.

(** Modelled from the spec: the constructor [ResNet::ResNet] (declared at
    resnet.hpp:64-69, defined in the missing resnet_impl.hpp), after
    section 4.6 and section 7: the version is validated first, then the
    combination of [preTrained] and [includeTop], both before any node is
    emitted; then the stem, the four stages and the optional head. *)
Definition ResNet_new (version inputChannel' inputWidth' inputHeight' : Z)
    (includeTop preTrained : bool) (numClasses' : Z) : Outcome :=
  let st0 := initialState inputChannel' inputWidth' inputHeight'
               numClasses' in
  match map_find version ResNetConfig with
  | Some ((block, counts) :: _) =>
      if preTrained && negb includeTop
      then Failed InvalidConfigurationError st0
      else
        let st1 :=
          mkState (resNet st0) (inputChannel st0) (inputWidth st0)
            (inputHeight st0) (numClasses st0) (downSampleInputWidth st0)
            (downSampleInputHeight st0) (downSampleInSize st0)
            counts block in
        match (Stem ;; Stages ;; Head includeTop) st1 with
        | Some (_, st) => Built st
        | None => UndefinedBehaviour
        end
  | _ => Failed UnsupportedVersionError st0
  end.

(** The nodes of the stem for an input of shape [(w, h)]. *)
Definition stemNodes (w h : Z) : list Layer :=
  [Convolution 3 64 7 7 2 2 stemPadding stemPadding w h;
   BatchNorm 64; ReLU; Pooling].

(** The nodes of the classification head. *)
Definition headNodes (includeTop : bool) (classes : Z) : list Layer :=
  if includeTop
  then [GlobalAveragePooling; Linear classes; OutputActivation]
  else [].

(** The size the stem turns an input size into. *)
Definition stemShape (x : Z) : option Z :=
  option_bind (ConvOutSize x 7 2 stemPadding) poolOutSize.

End Constructor.

(** A pooling reduction with a 3x3 window and stride 2 over an input padded
    by one on each side, as in the published architecture. *)
Definition maxPool3x3s2 (size : Z) : option Z :=
  ConvOutSize (SizeT.add size 2) 3 2 0.

(** ** Observations on the emitted graph *)

(** The output channel count of the last convolution of a layer; for a merge
    node, of its first branch (the main path). *)
Fixpoint outChannels (l : Layer) : option Z :=
  match l with
  | Convolution _ outSize _ _ _ _ _ _ _ _ => Some outSize
  | Sequential children =>
      fold_left
        (fun acc child =>
           match outChannels child with
           | Some c => Some c
           | None => acc
           end)
        children None
  | AddMerge (main :: _) => outChannels main
  | _ => None
  end.

(** A residual unit, as [BasicBlock] and [BottleNeck] add it to the
    network: a group of a two-branch merge and an activation. *)
Definition isResidualBlock (l : Layer) : bool :=
  match l with
  | Sequential [AddMerge [_; _]; ReLU] => true
  | _ => false
  end.

Definition residualChannels (l : Layer) : list Z :=
  if isResidualBlock l then
    match l with
    | Sequential (merge :: _) =>
        match outChannels merge with
        | Some c => [c]
        | None => []
        end
    | _ => []
    end
  else [].

(** Lengths of the maximal runs of equal values, with the value. *)
Fixpoint runLengths (l : list Z) : list (Z * Z) :=
  match l with
  | [] => []
  | x :: rest =>
      match runLengths rest with
      | (y, n) :: runs =>
          if x =? y then (y, n + 1) :: runs else (x, 1) :: (y, n) :: runs
      | [] => [(x, 1)]
      end
  end.

(** The stages of a network: for each maximal run of residual units with
    the same output channel count, that count and the number of units. *)
Definition stageCounts (net : list Layer) : list (Z * Z) :=
  runLengths (flat_map residualChannels net).

Definition shape_eqb (a b : Z * Z) : bool :=
  (fst a =? fst b) && (snd a =? snd b).

(** The spatial output shape of a layer for a spatial input shape, chaining
    [ConvOutSize] through the convolutions.  A convolution must have been
    constructed with the shape it receives; the branches of a merge all
    receive the merge's input and must agree on the output. *)
Fixpoint outShape (l : Layer) (input : Z * Z) : option (Z * Z) :=
  match l with
  | Convolution _ _ kW kH sW sH pW pH inW inH =>
      if shape_eqb (inW, inH) input then
        option_bind (ConvOutSize inW kW sW pW) (fun w =>
        option_bind (ConvOutSize inH kH sH pH) (fun h => Some (w, h)))
      else None
  | BatchNorm _ | ReLU | IdentityLayer => Some input
  | Sequential children =>
      fold_left
        (fun acc child => option_bind acc (outShape child))
        children (Some input)
  | AddMerge [] => None
  | AddMerge (first :: others) =>
      option_bind (outShape first input) (fun out =>
        if forallb
             (fun branch =>
                match outShape branch input with
                | Some out' => shape_eqb out out'
                | None => false
                end)
             others
        then Some out else None)
  | _ => None
  end.

(** The input shape the first convolution of a layer was constructed
    with. *)
Fixpoint firstConvInput (l : Layer) : option (Z * Z) :=
  match l with
  | Convolution _ _ _ _ _ _ _ _ inW inH => Some (inW, inH)
  | Sequential children | AddMerge children =>
      fold_right
        (fun child later =>
           match firstConvInput child with
           | Some s => Some s
           | None => later
           end)
        None children
  | _ => None
  end.

(** The two inputs of the merge node of a residual unit have the same
    shape: from the unit's input shape, the main path and the shortcut
    path both have an output shape, and the same one. *)
Definition mergeConsistent (l : Layer) : bool :=
  match l with
  | Sequential [AddMerge [main; shortcut]; ReLU] =>
      match firstConvInput main with
      | Some input =>
          match outShape main input, outShape shortcut input with
          | Some a, Some b => shape_eqb a b
          | _, _ => false
          end
      | None => false
      end
  | _ => false
  end.

(** ** Vocabulary of the properties *)

(** The residual unit of section 4.3, for a unit entered with the shape
    [(w, h)] whose first main-path convolution produces the shape
    [(w1, h1)]. *)
Definition basicUnit (inSize outSize sW sH : Z) (downSample : bool)
    (w h w1 h1 : Z) : Layer :=
  Sequential
    [AddMerge
       [Sequential
          [Sequential [Convolution inSize outSize 3 3 sW sH 1 1 w h;
                       BatchNorm outSize];
           ReLU;
           Sequential [Convolution outSize outSize 3 3 1 1 1 1 w1 h1;
                       BatchNorm outSize]];
        if downSample
        then Sequential [Convolution inSize outSize 1 1 sW sH 0 0 w h;
                         BatchNorm outSize]
        else IdentityLayer];
     ReLU].

(** The residual unit of section 4.4, for a unit entered with the shape
    [(w, h)] whose main-path convolutions receive the shapes [(w, h)],
    [(w1, h1)] and [(w2, h2)]. *)
Definition bottleNeckUnit (inSize outSize sW sH : Z) (downSample : bool)
    (width w h w1 h1 w2 h2 : Z) : Layer :=
  let expanded := SizeT.mul outSize bottleNeckExpansion in
  Sequential
    [AddMerge
       [Sequential
          [Sequential [Convolution inSize width 1 1 1 1 0 0 w h;
                       BatchNorm width];
           ReLU;
           Sequential [Convolution width width 3 3 sW sH 1 1 w1 h1;
                       BatchNorm width];
           ReLU;
           Sequential [Convolution width expanded 1 1 1 1 0 0 w2 h2;
                       BatchNorm expanded]];
        if downSample
        then Sequential [Convolution inSize expanded 1 1 sW sH 0 0 w h;
                         BatchNorm expanded]
        else IdentityLayer];
     ReLU].

(** The output size of a convolution whose kernel exceeds twice its padding
    by one (3 and 1, or 1 and 0), for a positive input size. *)
Definition strided (x s : Z) : Z := (x - 1) / s + 1.

(** The fields no block builder assigns. *)
Definition sameConfig (st st' : ResNetState) : Prop :=
  inputChannel st' = inputChannel st
  /\ numClasses st' = numClasses st
  /\ numBlockArray st' = numBlockArray st
  /\ builderBlock st' = builderBlock st.

(** Both dimensions of the tracked shape are positive and below [2^53]:
    every [ConvOutSize] of the builder is then exact. *)
Definition shapeOK (st : ResNetState) : Prop :=
  1 <= inputWidth st < 2 ^ 53 /\ 1 <= inputHeight st < 2 ^ 53.

(** The two block builders a stage is made of. *)
Inductive BlockKind : Type := BasicKind | BottleNeckKind.

(** [MakeLayer] builds basic blocks for the name "basicblock" and bottleneck
    blocks for every other name. *)
Definition kindOf (block : string) : BlockKind :=
  if String.eqb block "basicblock" then BasicKind else BottleNeckKind.

(** The expansion factor of a block kind: 1 for basic blocks, 4 for
    bottleneck blocks. *)
Definition expansionFactor (kind : BlockKind) : Z :=
  match kind with
  | BasicKind => basicBlockExpansion
  | BottleNeckKind => bottleNeckExpansion
  end.

(** [u] is the unit left by a block call that received the input channel
    count [inSize], the stride [stride] in both directions and the flag
    [downSample], for the output channel base [outSize]. *)
Definition receives (kind : BlockKind) (inSize outSize stride : Z)
    (downSample : bool) (u : Layer) : Prop :=
  match kind with
  | BasicKind =>
      exists w h w1 h1,
        u = basicUnit inSize outSize stride stride downSample w h w1 h1
  | BottleNeckKind =>
      exists width w h w1 h1 w2 h2,
        bottleNeckWidth 64 outSize 1 = Some width
        /\ u = bottleNeckUnit inSize outSize stride stride downSample width
                 w h w1 h1 w2 h2
  end.

(** The output channel base the first block of a stage is called with: the
    basic branch passes [outSize * basicBlockExpansion], the bottleneck
    branch [outSize]. *)
Definition firstOutSize (kind : BlockKind) (outSize : Z) : Z :=
  match kind with
  | BasicKind => SizeT.mul outSize basicBlockExpansion
  | BottleNeckKind => outSize
  end.

(** The flag [MakeLayer] computes for the first block of a stage. *)
Definition firstDownSample (kind : BlockKind) (tracked outSize stride : Z)
  : bool :=
  negb (stride =? 1)
  || negb (tracked =? SizeT.mul outSize (expansionFactor kind)).

(** Every unit of a list has a consistent merge. *)
Definition allMergeConsistent (units : list Layer) : Prop :=
  Forall (fun u => mergeConsistent u = true) units.

(** The builder of ResNet18 on a 224x224 image after the stem: an empty
    network here, the shape 56x56 and 64 tracked channels. *)
Definition stage1State : ResNetState :=
  mkState [] 3 56 56 1000 0 0 64 (2, 2, 2, 2) "basicblock".

(** The supported versions are the keys of [ResNetConfig]. *)
Definition supportedVersions : list Z := [18; 34; 50; 101; 152].

(** [units] is what a stage leaves behind: a first unit, built from the
    tracked channel count, the given stride and the computed flag, and
    [loopCount numBlocks] units built from the expanded count, the stride 1
    and no [downSample]. *)
Definition stageOf (kind : BlockKind) (tracked outSize numBlocks stride : Z)
    (units : list Layer) : Prop :=
  exists first rest,
    units = first :: rest
    /\ receives kind tracked (firstOutSize kind outSize) stride
         (firstDownSample kind tracked outSize stride) first
    /\ List.length rest = loopCount numBlocks
    /\ Forall
         (receives kind (SizeT.mul outSize (expansionFactor kind))
            outSize 1 false)
         rest.

(** The static table as the specification words it (sections 6 and 8): a
    block kind and four per-stage counts for each supported depth, to be
    compared with [ResNetConfig]. *)
Definition staticTableRow (version : Z) : option (string * list Z) :=
  if version =? 18 then Some ("basicblock"%string, [2; 2; 2; 2])
  else if version =? 34 then Some ("basicblock"%string, [3; 4; 6; 3])
  else if version =? 50 then Some ("bottleneck"%string, [3; 4; 6; 3])
  else if version =? 101 then Some ("bottleneck"%string, [3; 4; 23; 3])
  else if version =? 152 then Some ("bottleneck"%string, [3; 8; 36; 3])
  else None.

(** The output channel count of a unit built for the output base
    [outSize]. *)
Definition unitChannels (kind : BlockKind) (outSize : Z) : Z :=
  match kind with
  | BasicKind => outSize
  | BottleNeckKind => SizeT.mul outSize bottleNeckExpansion
  end.

(** The channel count a layer outputs for the channel count it receives.  A
    convolution must have been constructed for the count it receives, a
    normalization for the count it normalizes, and the branches of a merge
    all receive the merge's input and must agree on the output. *)
Fixpoint channelsThrough (l : Layer) (incoming : Z) : option Z :=
  match l with
  | Convolution inSize outSize _ _ _ _ _ _ _ _ =>
      if inSize =? incoming then Some outSize else None
  | BatchNorm size => if size =? incoming then Some incoming else None
  | ReLU | IdentityLayer => Some incoming
  | Sequential children =>
      fold_left
        (fun acc child =>
           option_bind acc (channelsThrough child))
        children (Some incoming)
  | AddMerge [] => None
  | AddMerge (first :: others) =>
      option_bind (channelsThrough first incoming) (fun out =>
        if forallb
             (fun branch =>
                match channelsThrough branch incoming with
                | Some out' => out =? out'
                | None => false
                end)
             others
        then Some out else None)
  | _ => None
  end.

(** The number of convolutions of a layer. *)
Fixpoint convolutions (l : Layer) : Z :=
  match l with
  | Convolution _ _ _ _ _ _ _ _ _ _ => 1
  | Sequential children | AddMerge children =>
      fold_right (fun child n => convolutions child + n) 0 children
  | _ => 0
  end.

(** The number of convolutions on the main path of a residual unit. *)
Definition mainPathConvolutions (u : Layer) : Z :=
  match u with
  | Sequential (AddMerge (main :: _) :: _) => convolutions main
  | _ => 0
  end.

(** The unit the first block of a stage leaves in the exact range, for a
    stage entered with the shape [(w, h)] and the tracked channel count
    [tracked]: [BasicBlock] is called with [outSize * basicBlockExpansion],
    [BottleNeck] with [outSize], for which its width is [outSize]. *)
Definition stageFirstUnit (kind : BlockKind)
    (tracked outSize stride w h : Z) : Layer :=
  let flag := firstDownSample kind tracked outSize stride in
  match kind with
  | BasicKind =>
      basicUnit tracked (SizeT.mul outSize basicBlockExpansion)
        stride stride flag w h (strided w stride) (strided h stride)
  | BottleNeckKind =>
      bottleNeckUnit tracked outSize stride stride flag outSize
        w h w h (strided w stride) (strided h stride)
  end.

(** The unit every later block of a stage leaves in the exact range, at the
    shape [(w, h)] the first block has left. *)
Definition stageRestUnit (kind : BlockKind) (outSize w h : Z) : Layer :=
  let expanded := SizeT.mul outSize (expansionFactor kind) in
  match kind with
  | BasicKind => basicUnit expanded outSize 1 1 false w h w h
  | BottleNeckKind =>
      bottleNeckUnit expanded outSize 1 1 false outSize w h w h w h
  end.

(** * Properties *)

(** ** Worked values *)

Example round53_below_2_53 : Binary64.round53 (2 ^ 53 - 1) = 2 ^ 53 - 1.
Proof. reflexivity. Qed.

Example round53_tie_to_even_down : Binary64.round53 (2 ^ 53 + 1) = 2 ^ 53.
Proof. reflexivity. Qed.

Example round53_tie_to_even_up :
  Binary64.round53 (2 ^ 53 + 3) = 2 ^ 53 + 4.
Proof. reflexivity. Qed.

Example round53_largest_size_t : Binary64.round53 (2 ^ 64 - 1) = 2 ^ 64.
Proof. reflexivity. Qed.

Example ConvOutSize_stem : ConvOutSize 224 7 2 3 = Some 112.
Proof. reflexivity. Qed.

Example ConvOutSize_stage : ConvOutSize 56 3 2 1 = Some 28.
Proof. reflexivity. Qed.

Example ConvOutSize_projection : ConvOutSize 56 1 2 0 = Some 28.
Proof. reflexivity. Qed.

(** [2^64 - 1] becomes [2^64] as a [double], which converts to 0. *)
Example ConvOutSize_out_of_range : ConvOutSize 0 1 1 0 = Some 0.
Proof. reflexivity. Qed.

(** The last quotient that rounds down, and the first that rounds up to
    [2^64]. *)
Example ConvOutSize_below_threshold :
  ConvOutSize 0 1025 1 0 = Some (2 ^ 64 - 2048).
Proof. reflexivity. Qed.

Example ConvOutSize_at_threshold : ConvOutSize 0 1024 1 0 = Some 0.
Proof. reflexivity. Qed.

Example ConvOutSize_zero_stride : ConvOutSize 224 7 0 3 = None.
Proof. reflexivity. Qed.

Example bottleNeckWidth_default : bottleNeckWidth 64 512 1 = Some 512.
Proof. reflexivity. Qed.

(** [0.5 * 7 = 3.5] truncates to 3, times 2 groups. *)
Example bottleNeckWidth_truncates : bottleNeckWidth 32 7 2 = Some 6.
Proof. reflexivity. Qed.

Example bottleNeckWidth_int_overflow :
  bottleNeckWidth 64 (2 ^ 31) 1 = None.
Proof. reflexivity. Qed.

Example maxPool3x3s2_stem : maxPool3x3s2 112 = Some 56.
Proof. reflexivity. Qed.

Example runLengths_example :
  runLengths [64; 64; 128; 128; 128; 256] = [(64, 2); (128, 3); (256, 1)].
Proof. reflexivity. Qed.

Example loopCount_zero : loopCount 0 = Z.to_nat (2 ^ 64 - 1).
Proof. reflexivity. Qed.

(** ** Unsigned arithmetic *)

Module SizeTFacts.
Import SizeT.

Lemma modulus_pos : 0 < modulus.
Proof. reflexivity. Qed.

Lemma wrap_range (x : Z) : in_range (wrap x).
Proof. unfold in_range, wrap. apply Z.mod_pos_bound. exact modulus_pos. Qed.

Lemma wrap_small (x : Z) : in_range x -> wrap x = x.
Proof. unfold in_range, wrap. intros H. now apply Z.mod_small. Qed.

(** The source computes [size - k + 2 * padding] left to right, wrapping at
    each step; the result is the wrap of the exact value. *)
Lemma sub_add_mul (a b c d : Z) :
  add (sub a b) (mul c d) = wrap (a - b + c * d).
Proof.
  unfold add, sub, mul, wrap.
  now rewrite <- Zplus_mod.
Qed.


Lemma mul_one (x : Z) : in_range x -> mul x 1 = x.
Proof. intros H. unfold mul. rewrite Z.mul_1_r. now apply wrap_small. Qed.

End SizeTFacts.

(** ** Rounding to binary64 *)

Module Binary64Facts.
Import Binary64.

Lemma round53_exact (n : Z) : n <= 2 ^ precision -> round53 n = n.
Proof.
  intros H. unfold round53.
  destruct (n <? 2 ^ precision) eqn:E; [reflexivity|].
  apply Z.ltb_ge in E.
  assert (n = 2 ^ precision) as -> by lia.
  reflexivity.
Qed.



Lemma to_size_t_small (x : Z) : x < 2 ^ 64 -> to_size_t x = x.
Proof.
  intros H. unfold to_size_t.
  destruct (x <? 2 ^ 64) eqn:E; [reflexivity | apply Z.ltb_ge in E; lia].
Qed.

End Binary64Facts.

(** ** [ConvOutSize] *)

Section ConvOutSizeFacts.

Import SizeT.

(** What [ConvOutSize] divides: the wrapped value of
    [size - k + 2 * padding]. *)
Lemma ConvOutSize_unfold (size k s padding : Z) :
  s <> 0 ->
  ConvOutSize size k s padding =
  let q := wrap (size - k + 2 * padding) / s in
  Some (Binary64.to_size_t (Binary64.round53 (Binary64.round53 q + 1))).
Proof.
  intros Hs. unfold ConvOutSize, div.
  rewrite SizeTFacts.sub_add_mul.
  destruct (s =? 0) eqn:E; [apply Z.eqb_eq in E; contradiction|].
  reflexivity.
Qed.

(** When the quotient is below [2^53] no rounding takes place. *)
Lemma ConvOutSize_small_quotient (size k s padding : Z) :
  0 < s ->
  wrap (size - k + 2 * padding) / s < 2 ^ 53 ->
  ConvOutSize size k s padding =
  Some (wrap (size - k + 2 * padding) / s + 1).
Proof.
  intros Hs Hq.
  rewrite ConvOutSize_unfold by lia. cbv zeta.
  set (q := wrap (size - k + 2 * padding) / s) in *.
  rewrite (Binary64Facts.round53_exact q)
    by (unfold Binary64.precision; lia).
  rewrite Binary64Facts.round53_exact
    by (unfold Binary64.precision; lia).
  rewrite Binary64Facts.to_size_t_small by lia. reflexivity.
Qed.

(** Without wrap-around and with a quotient below [2^53] the result is the
    exact one. *)
Lemma ConvOutSize_exact (size k s padding : Z) :
  0 < s ->
  0 <= size - k + 2 * padding < modulus ->
  (size - k + 2 * padding) / s < 2 ^ 53 ->
  ConvOutSize size k s padding = Some ((size - k + 2 * padding) / s + 1).
Proof.
  intros Hs Hr Hq.
  rewrite ConvOutSize_small_quotient; rewrite ?SizeTFacts.wrap_small;
    auto.
Qed.

End ConvOutSizeFacts.

(** C2 (counterexample).  The code does not return the value of the
    formula for all inputs.  With [size + 2 * padding < k] the difference
    wraps: [ConvOutSize(1, 3, 2, 0)] is [2^63], while
    [floor((1 - 3 + 0) / 2) + 1] is [0].  With the stride [0] the division
    is undefined and nothing is returned.  With a quotient above [2^53] the
    passage through [double] rounds: [ConvOutSize(2^60 + 2, 1, 1, 0)] is
    [2^60], not [2^60 + 2]. *)
Lemma ConvOutSize_formula_fails :
  (ConvOutSize 1 3 2 0 = Some (2 ^ 63)
   /\ ConvOutSize_formula 1 3 2 0 = 0
   /\ ConvOutSize 1 3 2 0 <> Some (ConvOutSize_formula 1 3 2 0))
  /\ ConvOutSize 224 7 0 3 <> Some (ConvOutSize_formula 224 7 0 3)
  /\ (ConvOutSize (2 ^ 60 + 2) 1 1 0 = Some (2 ^ 60)
      /\ ConvOutSize_formula (2 ^ 60 + 2) 1 1 0 = 2 ^ 60 + 2).
Proof.
  repeat split; try reflexivity; vm_compute; discriminate.
Qed.

(** C2 (amended).  For [size_t] arguments with a non-zero stride, no
    underflow ([k <= size + 2 * padding]), no overflow and a quotient below
    [2^53], [ConvOutSize] returns [floor((size - k + 2 * padding) / s) + 1]
    under truncating division. *)
Theorem ConvOutSize_formula_correct (size k s padding : Z) :
  SizeT.in_range size -> SizeT.in_range k ->
  SizeT.in_range s -> SizeT.in_range padding ->
  s <> 0 ->
  k <= size + 2 * padding ->
  size + 2 * padding - k < SizeT.modulus ->
  (size - k + 2 * padding) / s < 2 ^ 53 ->
  ConvOutSize size k s padding = Some (ConvOutSize_formula size k s padding).
Proof.
  unfold SizeT.in_range.
  intros Hsize Hk Hs Hp Hs0 Hunder Hover Hq.
  unfold ConvOutSize_formula.
  rewrite Z.quot_div_nonneg by lia.
  apply ConvOutSize_exact; lia.
Qed.

(** The stem convolution of the published architecture:
    [ConvOutSize(224, 7, 2, 3) = 112]. *)
Lemma ConvOutSize_formula_correct_witness :
  ConvOutSize 224 7 2 3 = Some 112.
Proof.
  apply (ConvOutSize_formula_correct 224 7 2 3);
    unfold SizeT.in_range, SizeT.modulus; try lia.
  vm_compute. reflexivity.
Defined.

(** ** [ConvolutionBlock] *)

(** The block appends one group of a convolution and a normalization to
    [baseLayer] and replaces the tracked shape by the convolution's output
    shape; the convolution is constructed with, and the shape is computed
    from, the override shape if [downSample] is set and the tracked shape
    otherwise.  Nothing else fails than [ConvOutSize]. *)
Lemma ConvolutionBlock_run (baseLayer : list Layer)
    (inSize outSize sW sH kW kH pW pH : Z) (downSample : bool)
    (dw dh : Z) (st : ResNetState) :
  ConvolutionBlock baseLayer inSize outSize sW sH kW kH pW pH
    downSample dw dh st =
  let w := if downSample then dw else inputWidth st in
  let h := if downSample then dh else inputHeight st in
  match ConvOutSize w kW sW pW, ConvOutSize h kH sH pH with
  | Some w', Some h' =>
      Some (baseLayer ++
              [Sequential [Convolution inSize outSize kW kH sW sH pW pH w h;
                           BatchNorm outSize]],
            set_inputHeight h' (set_inputWidth w' st))
  | _, _ => None
  end.
Proof.
  unfold ConvolutionBlock, bind, get, put, defined, ret.
  destruct downSample; cbn;
    repeat match goal with
           | |- context [match ConvOutSize ?a ?b ?c ?d with _ => _ end] =>
               destruct (ConvOutSize a b c d)
           end; reflexivity.
Qed.

(** ** [BasicBlock] *)

Lemma BasicBlock_run (inSize outSize sW sH : Z) (downSample : bool)
    (st : ResNetState) :
  BasicBlock inSize outSize sW sH downSample st =
  let w := inputWidth st in
  let h := inputHeight st in
  match ConvOutSize w 3 sW 1, ConvOutSize h 3 sH 1 with
  | Some w1, Some h1 =>
      match ConvOutSize w1 3 1 1, ConvOutSize h1 3 1 1 with
      | Some w2, Some h2 =>
          let unit := basicUnit inSize outSize sW sH downSample w h w1 h1 in
          if downSample then
            match ConvOutSize w 1 sW 0, ConvOutSize h 1 sH 0 with
            | Some w3, Some h3 =>
                Some (tt,
                      mkState (resNet st ++ [unit]) (inputChannel st) w3 h3
                        (numClasses st) w h (downSampleInSize st)
                        (numBlockArray st) (builderBlock st))
            | _, _ => None
            end
          else
            Some (tt,
                  mkState (resNet st ++ [unit]) (inputChannel st) w2 h2
                    (numClasses st) w h (downSampleInSize st)
                    (numBlockArray st) (builderBlock st))
      | _, _ => None
      end
  | _, _ => None
  end.
Proof.
  unfold BasicBlock, bind, get, put, ret, resNet_Add, ReLULayer.
  cbn -[ConvolutionBlock ConvOutSize].
  rewrite ConvolutionBlock_run. cbn -[ConvolutionBlock ConvOutSize].
  destruct (ConvOutSize (inputWidth st) 3 sW 1) as [w1|]; [|reflexivity].
  destruct (ConvOutSize (inputHeight st) 3 sH 1) as [h1|]; [|reflexivity].
  rewrite ConvolutionBlock_run. cbn -[ConvolutionBlock ConvOutSize].
  destruct (ConvOutSize w1 3 1 1) as [w2|]; [|reflexivity].
  destruct (ConvOutSize h1 3 1 1) as [h2|]; [|reflexivity].
  destruct downSample; [|reflexivity].
  rewrite ConvolutionBlock_run. cbn -[ConvolutionBlock ConvOutSize].
  destruct (ConvOutSize (inputWidth st) 1 sW 0) as [w3|]; [|reflexivity].
  destruct (ConvOutSize (inputHeight st) 1 sH 0) as [h3|]; reflexivity.
Qed.

(** ** [BottleNeck] *)

Lemma BottleNeck_run (inSize outSize sW sH : Z) (downSample : bool)
    (baseWidth groups : Z) (st : ResNetState) :
  BottleNeck inSize outSize sW sH downSample baseWidth groups st =
  let w := inputWidth st in
  let h := inputHeight st in
  match bottleNeckWidth baseWidth outSize groups with
  | None => None
  | Some width =>
  match ConvOutSize w 1 1 0, ConvOutSize h 1 1 0 with
  | Some w1, Some h1 =>
  match ConvOutSize w1 3 sW 1, ConvOutSize h1 3 sH 1 with
  | Some w2, Some h2 =>
  match ConvOutSize w2 1 1 0, ConvOutSize h2 1 1 0 with
  | Some w3, Some h3 =>
      let unit :=
        bottleNeckUnit inSize outSize sW sH downSample width
          w h w1 h1 w2 h2 in
      if downSample then
        match ConvOutSize w 1 sW 0, ConvOutSize h 1 sH 0 with
        | Some w4, Some h4 =>
            Some (tt,
                  mkState (resNet st ++ [unit]) (inputChannel st) w4 h4
                    (numClasses st) w h (downSampleInSize st)
                    (numBlockArray st) (builderBlock st))
        | _, _ => None
        end
      else
        Some (tt,
              mkState (resNet st ++ [unit]) (inputChannel st) w3 h3
                (numClasses st) w h (downSampleInSize st)
                (numBlockArray st) (builderBlock st))
  | _, _ => None
  end
  | _, _ => None
  end
  | _, _ => None
  end
  end.
Proof.
  unfold BottleNeck, bind, get, put, ret, defined, resNet_Add, ReLULayer.
  cbn -[ConvolutionBlock ConvOutSize bottleNeckWidth SizeT.mul].
  destruct (bottleNeckWidth baseWidth outSize groups) as [width|];
    [|reflexivity].
  rewrite ConvolutionBlock_run.
  cbn -[ConvolutionBlock ConvOutSize SizeT.mul].
  destruct (ConvOutSize (inputWidth st) 1 1 0) as [w1|]; [|reflexivity].
  destruct (ConvOutSize (inputHeight st) 1 1 0) as [h1|]; [|reflexivity].
  rewrite ConvolutionBlock_run.
  cbn -[ConvolutionBlock ConvOutSize SizeT.mul].
  destruct (ConvOutSize w1 3 sW 1) as [w2|]; [|reflexivity].
  destruct (ConvOutSize h1 3 sH 1) as [h2|]; [|reflexivity].
  rewrite ConvolutionBlock_run.
  cbn -[ConvolutionBlock ConvOutSize SizeT.mul].
  destruct (ConvOutSize w2 1 1 0) as [w3|]; [|reflexivity].
  destruct (ConvOutSize h2 1 1 0) as [h3|]; [|reflexivity].
  destruct downSample; [|reflexivity].
  rewrite ConvolutionBlock_run.
  cbn -[ConvolutionBlock ConvOutSize SizeT.mul].
  destruct (ConvOutSize (inputWidth st) 1 sW 0) as [w4|]; [|reflexivity].
  destruct (ConvOutSize (inputHeight st) 1 sH 0) as [h4|]; reflexivity.
Qed.

(** ** Shapes in the exact range *)

Lemma strided_bounds (x s : Z) :
  1 <= x -> 1 <= s -> 1 <= strided x s <= x.
Proof.
  intros Hx Hs. unfold strided.
  assert (0 <= (x - 1) / s) by (apply Z.div_pos; lia).
  assert ((x - 1) / s <= x - 1) by (apply Z.div_le_upper_bound; nia).
  lia.
Qed.

Lemma strided_one (x : Z) : strided x 1 = x.
Proof. unfold strided. rewrite Z.div_1_r. lia. Qed.

Lemma ConvOutSize_kernel3 (x s : Z) :
  1 <= x < 2 ^ 53 -> 1 <= s ->
  ConvOutSize x 3 s 1 = Some (strided x s).
Proof.
  intros Hx Hs.
  pose proof (strided_bounds x s ltac:(lia) Hs) as Hb. unfold strided in *.
  rewrite ConvOutSize_exact; unfold SizeT.modulus;
    replace (x - 3 + 2 * 1) with (x - 1) by lia; try reflexivity; lia.
Qed.

Lemma ConvOutSize_kernel1 (x s : Z) :
  1 <= x < 2 ^ 53 -> 1 <= s ->
  ConvOutSize x 1 s 0 = Some (strided x s).
Proof.
  intros Hx Hs.
  pose proof (strided_bounds x s ltac:(lia) Hs) as Hb. unfold strided in *.
  rewrite ConvOutSize_exact; unfold SizeT.modulus;
    replace (x - 1 + 2 * 0) with (x - 1) by lia; try reflexivity; lia.
Qed.

(** ** The bottleneck width *)

Lemma round53_lower (n : Z) :
  0 <= n -> Z.min n (2 ^ 53) <= Binary64.round53 n.
Proof.
  intros Hn.
  destruct (Z_le_gt_dec n (2 ^ 53)) as [Hs | Hb].
  - rewrite Binary64Facts.round53_exact by exact Hs. lia.
  - unfold Binary64.round53, Binary64.precision.
    destruct (n <? 2 ^ 53) eqn:E; [apply Z.ltb_lt in E; lia|].
    assert (Hlog : 53 <= Z.log2 n) by (apply Z.log2_le_pow2; lia).
    set (e := Z.log2 n - (53 - 1)).
    assert (He : 1 <= e) by (unfold e; lia).
    assert (Hpow : 2 ^ Z.log2 n = 2 ^ 52 * 2 ^ e).
    { rewrite <- Z.pow_add_r by lia. f_equal. unfold e. lia. }
    assert (Hlow : 2 ^ Z.log2 n <= n) by (apply Z.log2_spec; lia).
    assert (He2 : 2 <= 2 ^ e).
    { change 2 with (2 ^ 1) at 1. apply Z.pow_le_mono_r; lia. }
    assert (Hm : 2 ^ 52 <= n / 2 ^ e).
    { apply Z.div_le_lower_bound; lia. }
    cbv zeta.
    set (m := n / 2 ^ e) in *.
    set (P := 2 ^ e) in *.
    assert (2 ^ 53 <= m * P) by (change (2 ^ 53) with (2 ^ 52 * 2); nia).
    assert (m * P <= (m + 1) * P) by nia.
    rewrite Z.min_r by lia.
    repeat match goal with
           | |- context [if ?c then _ else _] => destruct c
           end; lia.
Qed.

(** The width is [floor(baseWidth * outSize / 64) * groups] as a [size_t]
    product, provided the floor fits an [int]; otherwise the conversion to
    [int] is undefined. *)
Lemma bottleNeckWidth_spec (baseWidth outSize groups : Z) :
  0 <= baseWidth -> 0 <= outSize ->
  bottleNeckWidth baseWidth outSize groups =
  if baseWidth * outSize / 64 <? 2 ^ 31
  then Some (SizeT.mul (baseWidth * outSize / 64) groups)
  else None.
Proof.
  intros Hb Ho. unfold bottleNeckWidth. cbv zeta.
  pose proof (round53_lower baseWidth Hb) as La.
  pose proof (round53_lower outSize Ho) as Lb.
  set (a := Binary64.round53 baseWidth) in *.
  set (b := Binary64.round53 outSize) in *.
  destruct (baseWidth * outSize / 64 <? 2 ^ 31) eqn:E.
  - apply Z.ltb_lt in E.
    assert (Hprod : baseWidth * outSize < 2 ^ 37).
    { destruct (Z_lt_ge_dec (baseWidth * outSize) (2 ^ 37)) as [|Hge];
        [assumption | exfalso].
      assert (2 ^ 31 <= baseWidth * outSize / 64)
        by (apply Z.div_le_lower_bound; lia).
      lia. }
    assert (Hab : a * b = baseWidth * outSize).
    { destruct (Z.eq_dec baseWidth 0) as [-> | Hb0];
        [subst a; rewrite Binary64Facts.round53_exact; [lia|];
         unfold Binary64.precision; lia|].
      destruct (Z.eq_dec outSize 0) as [-> | Ho0];
        [subst b;
         rewrite (Binary64Facts.round53_exact 0); [lia|];
         unfold Binary64.precision; lia|].
      assert (baseWidth < 2 ^ 37) by nia.
      assert (outSize < 2 ^ 37) by nia.
      subst a b.
      rewrite !Binary64Facts.round53_exact;
        unfold Binary64.precision; lia. }
    rewrite Hab.
    rewrite Binary64Facts.round53_exact
      by (unfold Binary64.precision; lia).
    destruct (baseWidth * outSize / 64 <? 2 ^ 31) eqn:E';
      [reflexivity | apply Z.ltb_ge in E'; lia].
  - apply Z.ltb_ge in E.
    assert (Hprod : 2 ^ 37 <= baseWidth * outSize).
    { destruct (Z_lt_ge_dec (baseWidth * outSize) (2 ^ 37)) as [Hlt|]; [|lia].
      exfalso.
      assert (baseWidth * outSize / 64 < 2 ^ 31)
        by (apply Z.div_lt_upper_bound; lia).
      lia. }
    assert (Hab : 2 ^ 37 <= a * b).
    { assert (1 <= baseWidth) by nia.
      assert (1 <= outSize) by nia.
      destruct (Z_le_gt_dec baseWidth (2 ^ 53));
        destruct (Z_le_gt_dec outSize (2 ^ 53)).
      - rewrite Z.min_l in La, Lb by lia. nia.
      - rewrite Z.min_l in La by lia. rewrite Z.min_r in Lb by lia. nia.
      - rewrite Z.min_r in La by lia. rewrite Z.min_l in Lb by lia. nia.
      - rewrite Z.min_r in La, Lb by lia. nia. }
    pose proof (round53_lower (a * b) ltac:(lia)) as Lp.
    assert (2 ^ 37 <= Binary64.round53 (a * b)).
    { destruct (Z_le_gt_dec (a * b) (2 ^ 53)).
      - rewrite Z.min_l in Lp by lia. lia.
      - rewrite Z.min_r in Lp by lia. lia. }
    assert (2 ^ 31 <= Binary64.round53 (a * b) / 64)
      by (apply Z.div_le_lower_bound; lia).
    destruct (Binary64.round53 (a * b) / 64 <? 2 ^ 31) eqn:E';
      [apply Z.ltb_lt in E'; lia | reflexivity].
Qed.

(** ** Residual units: what a block call leaves behind *)

Lemma sameConfig_refl (st : ResNetState) : sameConfig st st.
Proof. repeat split. Qed.

Lemma sameConfig_trans (a b c : ResNetState) :
  sameConfig a b -> sameConfig b c -> sameConfig a c.
Proof.
  unfold sameConfig. intros (A1 & A2 & A3 & A4) (B1 & B2 & B3 & B4).
  repeat split; congruence.
Qed.

Ltac invert_run H :=
  repeat match type of H with
         | context [match ?o with Some _ => _ | None => _ end] =>
             let E := fresh "E" in
             destruct o eqn:E; try discriminate H
         | context [if ?b then _ else _] =>
             let E := fresh "E" in
             destruct b eqn:E; try discriminate H
         end.

(** Whenever a [BasicBlock] call returns, it has taken the snapshot of the
    shape it was entered with, added one unit to the network and touched
    neither the tracked channel count nor the configuration. *)
Lemma BasicBlock_inv (inSize outSize sW sH : Z) (downSample : bool)
    (st st' : ResNetState) :
  BasicBlock inSize outSize sW sH downSample st = Some (tt, st') ->
  exists w1 h1,
    ConvOutSize (inputWidth st) 3 sW 1 = Some w1
    /\ ConvOutSize (inputHeight st) 3 sH 1 = Some h1
    /\ resNet st' =
       resNet st ++ [basicUnit inSize outSize sW sH downSample
                       (inputWidth st) (inputHeight st) w1 h1]
    /\ downSampleInputWidth st' = inputWidth st
    /\ downSampleInputHeight st' = inputHeight st
    /\ downSampleInSize st' = downSampleInSize st
    /\ sameConfig st st'.
Proof.
  rewrite BasicBlock_run. cbv zeta. intros H.
  destruct (ConvOutSize (inputWidth st) 3 sW 1) as [w1|] eqn:Ew;
    [|discriminate].
  destruct (ConvOutSize (inputHeight st) 3 sH 1) as [h1|] eqn:Eh;
    [|discriminate].
  exists w1, h1.
  invert_run H; inversion H; subst st'; cbn; repeat split; reflexivity.
Qed.

(** In the exact range a [BasicBlock] call returns, and the tracked shape
    becomes the strided one. *)
Lemma BasicBlock_defined (inSize outSize sW sH : Z) (downSample : bool)
    (st : ResNetState) :
  shapeOK st -> 1 <= sW -> 1 <= sH ->
  BasicBlock inSize outSize sW sH downSample st =
  Some (tt,
        mkState
          (resNet st ++
             [basicUnit inSize outSize sW sH downSample
                (inputWidth st) (inputHeight st)
                (strided (inputWidth st) sW) (strided (inputHeight st) sH)])
          (inputChannel st)
          (strided (inputWidth st) sW) (strided (inputHeight st) sH)
          (numClasses st) (inputWidth st) (inputHeight st)
          (downSampleInSize st) (numBlockArray st) (builderBlock st)).
Proof.
  intros [Hw Hh] HsW HsH.
  pose proof (strided_bounds (inputWidth st) sW ltac:(lia) HsW) as Bw.
  pose proof (strided_bounds (inputHeight st) sH ltac:(lia) HsH) as Bh.
  rewrite BasicBlock_run. cbv zeta.
  rewrite !ConvOutSize_kernel3 by lia.
  rewrite !ConvOutSize_kernel1 by lia.
  rewrite !strided_one.
  destruct downSample; reflexivity.
Qed.

Lemma BottleNeck_inv (inSize outSize sW sH : Z) (downSample : bool)
    (baseWidth groups : Z) (st st' : ResNetState) :
  BottleNeck inSize outSize sW sH downSample baseWidth groups st
  = Some (tt, st') ->
  exists width w1 h1 w2 h2,
    bottleNeckWidth baseWidth outSize groups = Some width
    /\ ConvOutSize (inputWidth st) 1 1 0 = Some w1
    /\ ConvOutSize (inputHeight st) 1 1 0 = Some h1
    /\ ConvOutSize w1 3 sW 1 = Some w2
    /\ ConvOutSize h1 3 sH 1 = Some h2
    /\ resNet st' =
       resNet st ++ [bottleNeckUnit inSize outSize sW sH downSample width
                       (inputWidth st) (inputHeight st) w1 h1 w2 h2]
    /\ downSampleInputWidth st' = inputWidth st
    /\ downSampleInputHeight st' = inputHeight st
    /\ downSampleInSize st' = downSampleInSize st
    /\ sameConfig st st'.
Proof.
  rewrite BottleNeck_run. cbv zeta. intros H.
  destruct (bottleNeckWidth baseWidth outSize groups) as [width|] eqn:Ewd;
    [|discriminate].
  destruct (ConvOutSize (inputWidth st) 1 1 0) as [w1|] eqn:Ew1;
    [|discriminate].
  destruct (ConvOutSize (inputHeight st) 1 1 0) as [h1|] eqn:Eh1;
    [|discriminate].
  destruct (ConvOutSize w1 3 sW 1) as [w2|] eqn:Ew2; [|discriminate].
  destruct (ConvOutSize h1 3 sH 1) as [h2|] eqn:Eh2; [|discriminate].
  exists width, w1, h1, w2, h2.
  invert_run H; inversion H; subst st'; cbn; repeat split;
    first [reflexivity | assumption].
Qed.

Lemma BottleNeck_defined (inSize outSize sW sH : Z) (downSample : bool)
    (baseWidth groups width : Z) (st : ResNetState) :
  shapeOK st -> 1 <= sW -> 1 <= sH ->
  bottleNeckWidth baseWidth outSize groups = Some width ->
  BottleNeck inSize outSize sW sH downSample baseWidth groups st =
  Some (tt,
        mkState
          (resNet st ++
             [bottleNeckUnit inSize outSize sW sH downSample width
                (inputWidth st) (inputHeight st)
                (inputWidth st) (inputHeight st)
                (strided (inputWidth st) sW) (strided (inputHeight st) sH)])
          (inputChannel st)
          (strided (inputWidth st) sW) (strided (inputHeight st) sH)
          (numClasses st) (inputWidth st) (inputHeight st)
          (downSampleInSize st) (numBlockArray st) (builderBlock st)).
Proof.
  intros [Hw Hh] HsW HsH Hwidth.
  pose proof (strided_bounds (inputWidth st) sW ltac:(lia) HsW) as Bw.
  pose proof (strided_bounds (inputHeight st) sH ltac:(lia) HsH) as Bh.
  rewrite BottleNeck_run. cbv zeta. rewrite Hwidth.
  rewrite (ConvOutSize_kernel1 (inputWidth st) 1) by lia.
  rewrite (ConvOutSize_kernel1 (inputHeight st) 1) by lia.
  rewrite !strided_one.
  rewrite !ConvOutSize_kernel3 by lia.
  rewrite (ConvOutSize_kernel1 (strided (inputWidth st) sW) 1) by lia.
  rewrite (ConvOutSize_kernel1 (strided (inputHeight st) sH) 1) by lia.
  rewrite !strided_one.
  destruct downSample; [|reflexivity].
  rewrite !ConvOutSize_kernel1 by lia.
  reflexivity.
Qed.

(** ** Merge consistency of the emitted units *)

Lemma shape_eqb_refl (s : Z * Z) : shape_eqb s s = true.
Proof. unfold shape_eqb. now rewrite !Z.eqb_refl. Qed.

Ltac shape_steps :=
  repeat (progress
            (rewrite ?shape_eqb_refl, ?strided_one;
             rewrite ?ConvOutSize_kernel3 by lia;
             rewrite ?ConvOutSize_kernel1 by lia;
             cbn -[ConvOutSize Z.eqb strided shape_eqb])).

(** A basic unit entered in the exact range has a main path and a shortcut
    path of the same output shape, provided a strided unit has a projection
    shortcut. *)
Lemma basicUnit_merge (inSize outSize sW sH : Z) (downSample : bool)
    (w h : Z) :
  1 <= w < 2 ^ 53 -> 1 <= h < 2 ^ 53 -> 1 <= sW -> 1 <= sH ->
  (downSample = true \/ (sW = 1 /\ sH = 1)) ->
  mergeConsistent
    (basicUnit inSize outSize sW sH downSample w h
       (strided w sW) (strided h sH)) = true.
Proof.
  intros Hw Hh HsW HsH Hds.
  pose proof (strided_bounds w sW ltac:(lia) HsW) as Bw.
  pose proof (strided_bounds h sH ltac:(lia) HsH) as Bh.
  unfold mergeConsistent, basicUnit.
  cbn -[ConvOutSize Z.eqb strided shape_eqb].
  shape_steps.
  destruct downSample.
  - shape_steps. reflexivity.
  - destruct Hds as [Hds | [-> ->]]; [discriminate|].
    shape_steps. reflexivity.
Qed.

Lemma bottleNeckUnit_merge (inSize outSize sW sH : Z) (downSample : bool)
    (width w h : Z) :
  1 <= w < 2 ^ 53 -> 1 <= h < 2 ^ 53 -> 1 <= sW -> 1 <= sH ->
  (downSample = true \/ (sW = 1 /\ sH = 1)) ->
  mergeConsistent
    (bottleNeckUnit inSize outSize sW sH downSample width w h w h
       (strided w sW) (strided h sH)) = true.
Proof.
  intros Hw Hh HsW HsH Hds.
  pose proof (strided_bounds w sW ltac:(lia) HsW) as Bw.
  pose proof (strided_bounds h sH ltac:(lia) HsH) as Bh.
  unfold mergeConsistent, bottleNeckUnit.
  cbn -[ConvOutSize Z.eqb strided shape_eqb SizeT.mul].
  shape_steps.
  destruct downSample.
  - shape_steps. reflexivity.
  - destruct Hds as [Hds | [-> ->]]; [discriminate|].
    shape_steps. reflexivity.
Qed.

(** ** [MakeLayer] *)

Lemma basic_loop_inv (outSize : Z) (n : nat) :
  forall st st',
    times n (tracked' <- get downSampleInSize ;;
             BasicBlock tracked' outSize 1 1 false) st = Some (tt, st') ->
    exists rest,
      resNet st' = resNet st ++ rest
      /\ List.length rest = n
      /\ Forall (receives BasicKind (downSampleInSize st) outSize 1 false)
           rest
      /\ downSampleInSize st' = downSampleInSize st
      /\ sameConfig st st'.
Proof.
  induction n as [|n IH]; intros st st' H.
  - inversion H; subst. exists []. rewrite app_nil_r.
    repeat split; auto.
  - cbn [times] in H. unfold bind at 1 in H.
    unfold bind at 1, get at 1 in H.
    destruct (BasicBlock (downSampleInSize st) outSize 1 1 false st)
      as [[[] st1]|] eqn:E1; [|discriminate].
    apply BasicBlock_inv in E1.
    destruct E1 as (w1 & h1 & _ & _ & Hnet & _ & _ & Htr & Hcfg).
    apply IH in H.
    destruct H as (rest & Hnet' & Hlen & Hall & Htr' & Hcfg').
    eexists (_ :: rest). repeat split.
    + rewrite Hnet', Hnet, <- app_assoc. reflexivity.
    + cbn. now rewrite Hlen.
    + constructor.
      * cbn. eauto.
      * now rewrite <- Htr.
    + congruence.
    + apply (sameConfig_trans _ _ _ Hcfg Hcfg').
    + apply (sameConfig_trans _ _ _ Hcfg Hcfg').
    + apply (sameConfig_trans _ _ _ Hcfg Hcfg').
    + apply (sameConfig_trans _ _ _ Hcfg Hcfg').
Qed.

Lemma bottleNeck_loop_inv (outSize : Z) (n : nat) :
  forall st st',
    times n (tracked' <- get downSampleInSize ;;
             BottleNeck tracked' outSize 1 1 false 64 1) st
    = Some (tt, st') ->
    exists rest,
      resNet st' = resNet st ++ rest
      /\ List.length rest = n
      /\ Forall
           (receives BottleNeckKind (downSampleInSize st) outSize 1 false)
           rest
      /\ downSampleInSize st' = downSampleInSize st
      /\ sameConfig st st'.
Proof.
  induction n as [|n IH]; intros st st' H.
  - inversion H; subst. exists []. rewrite app_nil_r.
    split; [reflexivity|]. split; [reflexivity|].
    split; [constructor|]. split; [reflexivity | apply sameConfig_refl].
  - cbn [times] in H. unfold bind at 1 in H.
    unfold bind at 1, get at 1 in H.
    destruct (BottleNeck (downSampleInSize st) outSize 1 1 false 64 1 st)
      as [[[] st1]|] eqn:E1; [|discriminate].
    apply BottleNeck_inv in E1.
    destruct E1 as (width & w1 & h1 & w2 & h2 & Hwd & _ & _ & _ & _ & Hnet
                    & _ & _ & Htr & Hcfg).
    apply IH in H.
    destruct H as (rest & Hnet' & Hlen & Hall & Htr' & Hcfg').
    eexists (_ :: rest).
    split; [rewrite Hnet', Hnet, <- app_assoc; reflexivity|].
    split; [cbn; now rewrite Hlen|].
    split.
    { constructor.
      - cbn. eauto 10.
      - now rewrite <- Htr. }
    split; [congruence | apply (sameConfig_trans _ _ _ Hcfg Hcfg')].
Qed.

(** Whenever [MakeLayer] returns, it has added a first unit and
    [loopCount numBlocks] further units, and set the tracked channel count
    to [outSize] times the expansion factor. *)
Lemma MakeLayer_inv (block : string) (outSize numBlocks stride : Z)
    (st st' : ResNetState) :
  MakeLayer block outSize numBlocks stride st = Some (tt, st') ->
  let kind := kindOf block in
  let expanded := SizeT.mul outSize (expansionFactor kind) in
  exists first rest,
    resNet st' = resNet st ++ first :: rest
    /\ receives kind (downSampleInSize st) (firstOutSize kind outSize) stride
         (firstDownSample kind (downSampleInSize st) outSize stride) first
    /\ List.length rest = loopCount numBlocks
    /\ Forall (receives kind expanded outSize 1 false) rest
    /\ downSampleInSize st' = expanded
    /\ sameConfig st st'.
Proof.
  unfold MakeLayer, kindOf, firstDownSample.
  destruct (String.eqb block "basicblock"); intros H; cbv zeta;
    cbn [expansionFactor firstOutSize].
  - unfold bind at 1, get at 1 in H. unfold bind at 1 in H.
    match type of H with
    | context [BasicBlock ?a ?b ?c ?d ?e st] =>
        destruct (BasicBlock a b c d e st) as [[[] st1]|] eqn:E1;
          [|discriminate]
    end.
    apply BasicBlock_inv in E1.
    destruct E1 as (w1 & h1 & _ & _ & Hnet & _ & _ & Htr & Hcfg).
    unfold bind at 1, put at 1 in H.
    apply basic_loop_inv in H.
    destruct H as (rest & Hnet' & Hlen & Hall & Htr' & Hcfg').
    eexists _, rest.
    split; [rewrite Hnet'; cbn [resNet set_downSampleInSize];
            rewrite Hnet, <- app_assoc; reflexivity|].
    split; [cbn; eauto|].
    split; [exact Hlen|].
    split; [exact Hall|].
    split; [exact Htr'|].
    apply (sameConfig_trans _ _ _ Hcfg). exact Hcfg'.
  - unfold bind at 1, get at 1 in H. unfold bind at 1 in H.
    match type of H with
    | context [BottleNeck ?a ?b ?c ?d ?e ?f ?g st] =>
        destruct (BottleNeck a b c d e f g st) as [[[] st1]|] eqn:E1;
          [|discriminate]
    end.
    apply BottleNeck_inv in E1.
    destruct E1 as (width & w1 & h1 & w2 & h2 & Hwd & _ & _ & _ & _ & Hnet
                    & _ & _ & Htr & Hcfg).
    unfold bind at 1, put at 1 in H.
    apply bottleNeck_loop_inv in H.
    destruct H as (rest & Hnet' & Hlen & Hall & Htr' & Hcfg').
    eexists _, rest.
    split; [rewrite Hnet'; cbn [resNet set_downSampleInSize];
            rewrite Hnet, <- app_assoc; reflexivity|].
    split; [cbn; eauto 10|].
    split; [exact Hlen|].
    split; [exact Hall|].
    split; [exact Htr'|].
    apply (sameConfig_trans _ _ _ Hcfg). exact Hcfg'.
Qed.

(** *** In the exact range *)

Lemma shapeOK_strided (st st' : ResNetState) (sW sH : Z) :
  shapeOK st -> 1 <= sW -> 1 <= sH ->
  inputWidth st' = strided (inputWidth st) sW ->
  inputHeight st' = strided (inputHeight st) sH ->
  shapeOK st'.
Proof.
  intros [Hw Hh] HsW HsH Ew Eh. unfold shapeOK. rewrite Ew, Eh.
  pose proof (strided_bounds (inputWidth st) sW ltac:(lia) HsW).
  pose proof (strided_bounds (inputHeight st) sH ltac:(lia) HsH).
  lia.
Qed.

Lemma basic_loop_defined (outSize : Z) (n : nat) :
  forall st,
    shapeOK st ->
    exists st' rest,
      times n (tracked' <- get downSampleInSize ;;
               BasicBlock tracked' outSize 1 1 false) st = Some (tt, st')
      /\ inputWidth st' = inputWidth st
      /\ inputHeight st' = inputHeight st
      /\ resNet st' = resNet st ++ rest
      /\ allMergeConsistent rest.
Proof.
  induction n as [|n IH]; intros st Hok.
  - exists st, []. rewrite app_nil_r. repeat split. constructor.
  - cbn [times]. unfold bind at 1. unfold bind at 1, get at 1.
    rewrite BasicBlock_defined by (auto; lia).
    rewrite !strided_one.
    match goal with
    | |- context [times n _ ?s] => destruct (IH s) as (st' & rest & H)
    end.
    { exact Hok. }
    destruct H as (Hrun & Hw & Hh & Hnet & Hall).
    exists st', (basicUnit (downSampleInSize st) outSize 1 1 false
                   (inputWidth st) (inputHeight st)
                   (inputWidth st) (inputHeight st) :: rest).
    split; [exact Hrun|].
    split; [exact Hw|]. split; [exact Hh|].
    split; [rewrite Hnet; cbn [resNet]; rewrite <- app_assoc; reflexivity|].
    constructor; [|exact Hall].
    destruct Hok as [Hw0 Hh0].
    pose proof (basicUnit_merge (downSampleInSize st) outSize 1 1 false
                  (inputWidth st) (inputHeight st) Hw0 Hh0) as Hm.
    rewrite !strided_one in Hm. apply Hm; auto; lia.
Qed.

Lemma bottleNeck_loop_defined (outSize width : Z) (n : nat) :
  bottleNeckWidth 64 outSize 1 = Some width ->
  forall st,
    shapeOK st ->
    exists st' rest,
      times n (tracked' <- get downSampleInSize ;;
               BottleNeck tracked' outSize 1 1 false 64 1) st
      = Some (tt, st')
      /\ inputWidth st' = inputWidth st
      /\ inputHeight st' = inputHeight st
      /\ resNet st' = resNet st ++ rest
      /\ allMergeConsistent rest.
Proof.
  intros Hwidth.
  induction n as [|n IH]; intros st Hok.
  - exists st, []. rewrite app_nil_r. repeat split. constructor.
  - cbn [times]. unfold bind at 1. unfold bind at 1, get at 1.
    rewrite (BottleNeck_defined _ _ _ _ _ _ _ width) by (auto; lia).
    rewrite !strided_one.
    match goal with
    | |- context [times n _ ?s] => destruct (IH s) as (st' & rest & H)
    end.
    { exact Hok. }
    destruct H as (Hrun & Hw & Hh & Hnet & Hall).
    exists st', (bottleNeckUnit (downSampleInSize st) outSize 1 1 false
                   width (inputWidth st) (inputHeight st)
                   (inputWidth st) (inputHeight st)
                   (inputWidth st) (inputHeight st) :: rest).
    split; [exact Hrun|].
    split; [exact Hw|]. split; [exact Hh|].
    split; [rewrite Hnet; cbn [resNet]; rewrite <- app_assoc; reflexivity|].
    constructor; [|exact Hall].
    destruct Hok as [Hw0 Hh0].
    pose proof (bottleNeckUnit_merge (downSampleInSize st) outSize 1 1 false
                  width (inputWidth st) (inputHeight st) Hw0 Hh0) as Hm.
    rewrite !strided_one in Hm. apply Hm; auto; lia.
Qed.

Lemma firstDownSample_strided (kind : BlockKind)
    (tracked outSize stride : Z) :
  firstDownSample kind tracked outSize stride = true
  \/ (stride = 1 /\ stride = 1).
Proof.
  unfold firstDownSample.
  destruct (stride =? 1) eqn:E.
  - apply Z.eqb_eq in E. right. auto.
  - left. reflexivity.
Qed.

(** From a shape in the exact range, with a positive stride (and, for
    bottleneck blocks, an output channel base that fits an [int]),
    [MakeLayer] returns; the tracked shape becomes the strided one and every
    unit added has a consistent merge. *)
Lemma MakeLayer_defined (block : string) (outSize numBlocks stride : Z)
    (st : ResNetState) :
  shapeOK st -> 1 <= stride ->
  (kindOf block = BottleNeckKind -> 0 <= outSize < 2 ^ 31) ->
  exists st' units,
    MakeLayer block outSize numBlocks stride st = Some (tt, st')
    /\ inputWidth st' = strided (inputWidth st) stride
    /\ inputHeight st' = strided (inputHeight st) stride
    /\ resNet st' = resNet st ++ units
    /\ allMergeConsistent units.
Proof.
  intros Hok Hs Hout.
  pose proof (firstDownSample_strided (kindOf block) (downSampleInSize st)
                outSize stride) as Hds.
  unfold MakeLayer, kindOf, firstDownSample in *.
  destruct (String.eqb block "basicblock").
  - cbn [expansionFactor] in Hds.
    unfold bind at 1, get at 1. unfold bind at 1.
    rewrite BasicBlock_defined by auto.
    unfold bind at 1, put at 1.
    match goal with
    | |- context [times ?n _ ?s] =>
        destruct (basic_loop_defined outSize n s) as (st' & rest & H)
    end.
    { eapply (shapeOK_strided st _ stride stride); eauto. }
    destruct H as (Hrun & Hw & Hh & Hnet & Hall).
    eexists st', (_ :: rest).
    split; [exact Hrun|].
    split; [exact Hw|]. split; [exact Hh|].
    split; [rewrite Hnet; cbn [resNet set_downSampleInSize];
            rewrite <- app_assoc; reflexivity|].
    constructor; [|exact Hall].
    destruct Hok as [Hw0 Hh0].
    apply basicUnit_merge; auto.
  - cbn [expansionFactor] in Hds.
    specialize (Hout eq_refl).
    assert (Hwidth : bottleNeckWidth 64 outSize 1 = Some outSize).
    { rewrite bottleNeckWidth_spec by lia.
      replace (64 * outSize / 64) with outSize
        by (rewrite Z.mul_comm, Z.div_mul; lia).
      destruct (outSize <? 2 ^ 31) eqn:E;
        [|apply Z.ltb_ge in E; lia].
      rewrite SizeTFacts.mul_one; [reflexivity|].
      unfold SizeT.in_range, SizeT.modulus. lia. }
    unfold bind at 1, get at 1. unfold bind at 1.
    rewrite (BottleNeck_defined _ _ _ _ _ _ _ outSize) by auto.
    unfold bind at 1, put at 1.
    match goal with
    | |- context [times ?n _ ?s] =>
        destruct (bottleNeck_loop_defined outSize outSize n Hwidth s)
          as (st' & rest & H)
    end.
    { eapply (shapeOK_strided st _ stride stride); eauto. }
    destruct H as (Hrun & Hw & Hh & Hnet & Hall).
    eexists st', (_ :: rest).
    split; [exact Hrun|].
    split; [exact Hw|]. split; [exact Hh|].
    split; [rewrite Hnet; cbn [resNet set_downSampleInSize];
            rewrite <- app_assoc; reflexivity|].
    constructor; [|exact Hall].
    destruct Hok as [Hw0 Hh0].
    apply bottleNeckUnit_merge; auto.
Qed.

(** *** Quotients in the top binade *)




(** ** The stride zero and the missing guard (C10) *)





(** ** What a block call and a stage emit (C6, C5, C1) *)

(** C6.  A [BasicBlock] call that returns has first taken the snapshot of
    the shape it was entered with (also without [downSample]) and has
    appended one unit to the network's top-level sequence: a merge of a main
    path (a convolution block from [inSize] to [outSize] with the given
    stride, an activation, a convolution block from [outSize] to [outSize]
    with stride 1) and of a shortcut (a projection convolution block with
    kernel 1, padding 0 and the given stride, built on the snapshot shape,
    if [downSample]; an identity otherwise), followed by an activation.
    From a shape in the exact range and with positive strides the call does
    return. *)
Theorem BasicBlock_emits_residual_unit (inSize outSize sW sH : Z)
    (downSample : bool) (st : ResNetState) :
  (forall st',
      BasicBlock inSize outSize sW sH downSample st = Some (tt, st') ->
      downSampleInputWidth st' = inputWidth st
      /\ downSampleInputHeight st' = inputHeight st
      /\ exists w1 h1,
          ConvOutSize (inputWidth st) 3 sW 1 = Some w1
          /\ ConvOutSize (inputHeight st) 3 sH 1 = Some h1
          /\ resNet st' =
             resNet st ++
             [Sequential
                [AddMerge
                   [Sequential
                      [Sequential
                         [Convolution inSize outSize 3 3 sW sH 1 1
                            (inputWidth st) (inputHeight st);
                          BatchNorm outSize];
                       ReLU;
                       Sequential
                         [Convolution outSize outSize 3 3 1 1 1 1 w1 h1;
                          BatchNorm outSize]];
                    if downSample
                    then Sequential
                           [Convolution inSize outSize 1 1 sW sH 0 0
                              (inputWidth st) (inputHeight st);
                            BatchNorm outSize]
                    else IdentityLayer];
                 ReLU]])
  /\ (shapeOK st -> 1 <= sW -> 1 <= sH ->
      exists st', BasicBlock inSize outSize sW sH downSample st
                  = Some (tt, st')).
Proof.
  split.
  - intros st' H. apply BasicBlock_inv in H.
    destruct H as (w1 & h1 & Ew & Eh & Hnet & Hdw & Hdh & _ & _).
    split; [exact Hdw|]. split; [exact Hdh|].
    exists w1, h1. repeat split; assumption.
  - intros Hok HsW HsH. eexists.
    apply BasicBlock_defined; assumption.
Qed.

(** The first block of the second stage of ResNet18: entered at 56x56 with
    stride 2 and a projection, it leaves the shape 28x28 and the snapshot
    56x56. *)
Lemma BasicBlock_emits_residual_unit_witness :
  exists st',
    BasicBlock 64 128 2 2 true stage1State = Some (tt, st')
    /\ downSampleInputWidth st' = 56
    /\ downSampleInputHeight st' = 56.
Proof.
  destruct (BasicBlock_emits_residual_unit 64 128 2 2 true stage1State)
    as [Hinv Hdef].
  destruct Hdef as [st' Hrun];
    [unfold shapeOK; cbn; lia | lia | lia |].
  exists st'. split; [exact Hrun|].
  destruct (Hinv st' Hrun) as (Hw & Hh & _).
  split; assumption.
Defined.

(** C5.  A [BottleNeck] call that returns has computed the width
    [floor(baseWidth * outSize / 64) * groups] (a [size_t] product), which
    is [outSize] for the defaults 64 and 1, and the last convolution of the
    main path of the unit it appends outputs [outSize * 4] channels (a
    [size_t] product, the exact one unless it overflows); that is also the
    channel count [MakeLayer] tracks after a bottleneck stage.  The call
    returns from a shape in the exact range when the floor fits an
    [int]. *)
Theorem BottleNeck_width_and_expansion (inSize outSize sW sH : Z)
    (downSample : bool) (baseWidth groups : Z) (st : ResNetState) :
  SizeT.in_range baseWidth -> SizeT.in_range outSize ->
  SizeT.in_range groups ->
  let expanded := SizeT.mul outSize bottleNeckExpansion in
  (forall st',
      BottleNeck inSize outSize sW sH downSample baseWidth groups st
      = Some (tt, st') ->
      exists width main shortcut w2 h2,
        bottleNeckWidth baseWidth outSize groups = Some width
        /\ width = SizeT.mul (baseWidth * outSize / 64) groups
        /\ (SizeT.in_range (baseWidth * outSize / 64 * groups) ->
            width = baseWidth * outSize / 64 * groups)
        /\ (baseWidth = 64 -> groups = 1 -> width = outSize)
        /\ resNet st' =
           resNet st ++ [Sequential [AddMerge [Sequential main; shortcut];
                                     ReLU]]
        /\ List.last main ReLU =
           Sequential [Convolution width expanded 1 1 1 1 0 0 w2 h2;
                       BatchNorm expanded]
        /\ outChannels (AddMerge [Sequential main; shortcut])
           = Some expanded)
  /\ (SizeT.in_range (outSize * 4) -> expanded = outSize * 4)
  /\ (forall block numBlocks stride s s',
         kindOf block = BottleNeckKind ->
         MakeLayer block outSize numBlocks stride s = Some (tt, s') ->
         downSampleInSize s' = expanded)
  /\ (shapeOK st -> 1 <= sW -> 1 <= sH ->
      baseWidth * outSize / 64 < 2 ^ 31 ->
      exists st',
        BottleNeck inSize outSize sW sH downSample baseWidth groups st
        = Some (tt, st')).
Proof.
  intros Hb Ho Hg expanded. unfold SizeT.in_range in Hb, Ho, Hg.
  split; [|split; [|split]].
  - intros st' H. apply BottleNeck_inv in H.
    destruct H as (width & w1 & h1 & w2 & h2 & Hwd & _ & _ & _ & _ & Hnet
                   & _).
    pose proof Hwd as Hspec. rewrite bottleNeckWidth_spec in Hspec by lia.
    destruct (baseWidth * outSize / 64 <? 2 ^ 31) eqn:E; [|discriminate].
    apply Z.ltb_lt in E. injection Hspec as Hw.
    unfold bottleNeckUnit in Hnet. cbv zeta in Hnet. fold expanded in Hnet.
    eexists width, _, _, w2, h2.
    split; [exact Hwd|]. split; [symmetry; exact Hw|].
    split; [intros Hr; rewrite <- Hw; unfold SizeT.mul;
            now apply SizeTFacts.wrap_small|].
    split.
    { intros -> ->. rewrite <- Hw.
      replace (64 * outSize / 64) with outSize in *
        by (rewrite Z.mul_comm, Z.div_mul; lia).
      apply SizeTFacts.mul_one. unfold SizeT.in_range, SizeT.modulus. lia. }
    split; [exact Hnet|].
    split; reflexivity.
  - intros Hexp. unfold expanded, SizeT.mul, bottleNeckExpansion.
    now apply SizeTFacts.wrap_small.
  - intros block numBlocks stride s s' Hkind H.
    apply MakeLayer_inv in H. cbv zeta in H.
    destruct H as (first & rest & _ & _ & _ & _ & Htr & _).
    rewrite Hkind in Htr. exact Htr.
  - intros Hok HsW HsH Hfit.
    pose proof (bottleNeckWidth_spec baseWidth outSize groups
                  ltac:(lia) ltac:(lia)) as Hwd.
    destruct (baseWidth * outSize / 64 <? 2 ^ 31) eqn:E;
      [|apply Z.ltb_ge in E; lia].
    eexists. eapply BottleNeck_defined; eassumption.
Qed.

(** The first block of the first stage of ResNet50: width 64, out 256. *)
Lemma BottleNeck_width_and_expansion_witness :
  bottleNeckWidth 64 64 1 = Some 64
  /\ exists st',
      BottleNeck 64 64 1 1 true 64 1 stage1State = Some (tt, st').
Proof.
  split; [reflexivity|].
  destruct (BottleNeck_width_and_expansion 64 64 1 1 true 64 1 stage1State)
    as (_ & _ & _ & Hdef);
    try (unfold SizeT.in_range, SizeT.modulus; lia).
  apply Hdef; [unfold shapeOK; cbn; lia | lia | lia |].
  vm_compute. reflexivity.
Defined.

(** The arguments a unit was built from can be read off the unit. *)
Lemma receives_inj (kind : BlockKind) (u : Layer)
    (inSize outSize stride inSize' outSize' stride' : Z)
    (downSample downSample' : bool) :
  receives kind inSize outSize stride downSample u ->
  receives kind inSize' outSize' stride' downSample' u ->
  inSize = inSize' /\ stride = stride' /\ downSample = downSample'.
Proof.
  destruct kind; cbn.
  - intros (w & h & w1 & h1 & ->) (w' & h' & w1' & h1' & H).
    unfold basicUnit in H.
    destruct downSample, downSample'; inversion H; auto.
  - intros (width & w & h & w1 & h1 & w2 & h2 & _ & ->)
           (width' & w' & h' & w1' & h1' & w2' & h2' & _ & H).
    unfold bottleNeckUnit in H.
    destruct downSample, downSample'; inversion H; auto.
Qed.

(** C1.  A [MakeLayer] call that returns has appended a first unit and then
    [numBlocks - 1] further units (modulo [2^64]: the loop counter wraps
    when [numBlocks] is 0).  The first unit is the one of a block that
    received the tracked channel count, the given stride and the flag
    [(stride != 1) || (tracked != outSize * expansion)]; the tracked count
    is then [outSize * expansion] (a [size_t] product, the exact one unless
    it overflows); every further unit is the one of a block that received
    that count, the stride 1 and no [downSample], and of no block that
    received anything else.  From a shape in the exact range the call does
    return. *)
Theorem MakeLayer_only_first_block_downsamples (block : string)
    (outSize numBlocks stride : Z) (st : ResNetState) :
  let kind := kindOf block in
  let expanded := SizeT.mul outSize (expansionFactor kind) in
  SizeT.in_range numBlocks -> SizeT.in_range outSize ->
  (forall st',
      MakeLayer block outSize numBlocks stride st = Some (tt, st') ->
      exists first rest,
        resNet st' = resNet st ++ first :: rest
        /\ receives kind (downSampleInSize st) outSize stride
             (negb (stride =? 1) || negb (downSampleInSize st =? expanded))
             first
        /\ downSampleInSize st' = expanded
        /\ Z.of_nat (List.length rest) = SizeT.wrap (numBlocks - 1)
        /\ (1 <= numBlocks -> Z.of_nat (List.length rest) = numBlocks - 1)
        /\ Forall (receives kind expanded outSize 1 false) rest
        /\ (forall u inSize' outSize' stride' downSample',
               In u rest ->
               receives kind inSize' outSize' stride' downSample' u ->
               stride' = 1 /\ downSample' = false))
  /\ (SizeT.in_range (outSize * expansionFactor kind) ->
      expanded = outSize * expansionFactor kind)
  /\ (shapeOK st -> 1 <= stride ->
      (kind = BottleNeckKind -> outSize < 2 ^ 31) ->
      exists st', MakeLayer block outSize numBlocks stride st
                  = Some (tt, st')).
Proof.
  intros kind expanded Hn Hout.
  assert (Hfirst : firstOutSize kind outSize = outSize).
  { destruct kind; [|reflexivity]. cbn [firstOutSize].
    unfold basicBlockExpansion. now apply SizeTFacts.mul_one. }
  split; [|split].
  - intros st' H. apply MakeLayer_inv in H. cbv zeta in H.
    fold kind in H. fold expanded in H.
    destruct H as (first & rest & Hnet & Hrec & Hlen & Hall & Htr & _).
    rewrite Hfirst in Hrec. unfold firstDownSample in Hrec.
    fold expanded in Hrec.
    assert (Hcount : Z.of_nat (List.length rest) = SizeT.wrap (numBlocks - 1)).
    { rewrite Hlen. unfold loopCount, SizeT.sub.
      apply Z2Nat.id. apply SizeTFacts.wrap_range. }
    exists first, rest.
    split; [exact Hnet|]. split; [exact Hrec|]. split; [exact Htr|].
    split; [exact Hcount|].
    split.
    { intros H1. rewrite Hcount. apply SizeTFacts.wrap_small.
      unfold SizeT.in_range in *. lia. }
    split; [exact Hall|].
    intros u i o s d Hin Hu.
    rewrite Forall_forall in Hall.
    destruct (receives_inj _ _ _ _ _ _ _ _ _ _ (Hall u Hin) Hu)
      as (_ & Hs & Hd).
    split; congruence.
  - intros Hexp. unfold expanded, SizeT.mul.
    now apply SizeTFacts.wrap_small.
  - intros Hok Hs Hfit.
    destruct (MakeLayer_defined block outSize numBlocks stride st Hok Hs)
      as (st' & units & Hrun & _).
    + intros Hk. unfold SizeT.in_range in Hout.
      split; [lia | apply Hfit, Hk].
    + exists st'. exact Hrun.
Qed.

(** The second stage of ResNet18, entered at 56x56 with 64 channels. *)
Lemma MakeLayer_only_first_block_downsamples_witness :
  exists st',
    MakeLayer "basicblock" 128 2 2 stage1State = Some (tt, st')
    /\ downSampleInSize st' = 128.
Proof.
  destruct (MakeLayer_only_first_block_downsamples "basicblock" 128 2 2
              stage1State) as (Hinv & _ & Hdef);
    [unfold SizeT.in_range, SizeT.modulus; lia
    | unfold SizeT.in_range, SizeT.modulus; lia |].
  destruct Hdef as [st' Hrun];
    [unfold shapeOK; cbn; lia | lia | discriminate |].
  exists st'. split; [exact Hrun|].
  destruct (Hinv st' Hrun) as (first & rest & _ & _ & Htr & _).
  exact Htr.
Defined.

(** ** The constructor *)

Lemma bind_inv {A B : Type} (m : M A) (k : A -> M B)
    (st st' : ResNetState) (b : B) :
  bind m k st = Some (b, st') ->
  exists a st1, m st = Some (a, st1) /\ k a st1 = Some (b, st').
Proof.
  unfold bind. destruct (m st) as [[a st1]|]; [|discriminate].
  intros H. exists a, st1. split; [reflexivity | exact H].
Qed.

Lemma bind_run {A B : Type} (m : M A) (k : A -> M B)
    (st st1 : ResNetState) (a : A) :
  m st = Some (a, st1) -> bind m k st = k a st1.
Proof. unfold bind. now intros ->. Qed.

Lemma ResNetConfig_rows :
  map_find 18 ResNetConfig = Some [("basicblock"%string, (2, 2, 2, 2))]
  /\ map_find 34 ResNetConfig = Some [("basicblock"%string, (3, 4, 6, 3))]
  /\ map_find 50 ResNetConfig = Some [("bottleneck"%string, (3, 4, 6, 3))]
  /\ map_find 101 ResNetConfig
     = Some [("bottleneck"%string, (3, 4, 23, 3))]
  /\ map_find 152 ResNetConfig
     = Some [("bottleneck"%string, (3, 8, 36, 3))].
Proof. repeat split. Qed.

Lemma ResNetConfig_unsupported (version : Z) :
  ~ In version supportedVersions -> map_find version ResNetConfig = None.
Proof.
  intros Hnot. unfold ResNetConfig. cbn [map_find].
  repeat match goal with
         | |- context [?k =? version] =>
             let E := fresh "E" in
             destruct (k =? version) eqn:E;
               [apply Z.eqb_eq in E; exfalso; apply Hnot;
                unfold supportedVersions; cbn; auto 10|]
         end.
  reflexivity.
Qed.

Lemma MakeLayer_stage_inv (block : string) (outSize numBlocks stride : Z)
    (st st' : ResNetState) :
  MakeLayer block outSize numBlocks stride st = Some (tt, st') ->
  exists units,
    resNet st' = resNet st ++ units
    /\ stageOf (kindOf block) (downSampleInSize st) outSize numBlocks stride
         units
    /\ downSampleInSize st' = SizeT.mul outSize (expansionFactor (kindOf block))
    /\ sameConfig st st'.
Proof.
  intros H. apply MakeLayer_inv in H. cbv zeta in H.
  destruct H as (first & rest & Hnet & Hrec & Hlen & Hall & Htr & Hcfg).
  exists (first :: rest).
  split; [exact Hnet|]. split; [|split; assumption].
  exists first, rest. repeat split; assumption.
Qed.

Lemma Stages_inv (st st' : ResNetState) (n0 n1 n2 n3 : Z) :
  numBlockArray st = (n0, n1, n2, n3) ->
  Stages st = Some (tt, st') ->
  let kind := kindOf (builderBlock st) in
  let e := expansionFactor kind in
  exists u1 u2 u3 u4,
    resNet st' = resNet st ++ u1 ++ u2 ++ u3 ++ u4
    /\ stageOf kind (downSampleInSize st) 64 n0 1 u1
    /\ stageOf kind (SizeT.mul 64 e) 128 n1 2 u2
    /\ stageOf kind (SizeT.mul 128 e) 256 n2 2 u3
    /\ stageOf kind (SizeT.mul 256 e) 512 n3 2 u4
    /\ downSampleInSize st' = SizeT.mul 512 e
    /\ numClasses st' = numClasses st.
Proof.
  intros Hcounts H. unfold Stages in H.
  unfold bind at 1, get at 1 in H. unfold bind at 1, get at 1 in H.
  rewrite Hcounts in H.
  apply bind_inv in H. destruct H as ([] & st1 & H1 & H).
  apply bind_inv in H. destruct H as ([] & st2 & H2 & H).
  apply bind_inv in H. destruct H as ([] & st3 & H3 & H4).
  apply MakeLayer_stage_inv in H1, H2, H3, H4.
  destruct H1 as (u1 & N1 & S1 & T1 & C1).
  destruct H2 as (u2 & N2 & S2 & T2 & C2).
  destruct H3 as (u3 & N3 & S3 & T3 & C3).
  destruct H4 as (u4 & N4 & S4 & T4 & C4).
  rewrite T1 in S2. rewrite T2 in S3. rewrite T3 in S4.
  exists u1, u2, u3, u4. cbv zeta.
  split; [rewrite N4, N3, N2, N1, <- !app_assoc; reflexivity|].
  do 5 (split; [assumption|]).
  destruct C1 as (_ & A1 & _), C2 as (_ & A2 & _), C3 as (_ & A3 & _),
           C4 as (_ & A4 & _).
  congruence.
Qed.

Lemma Stages_defined (st : ResNetState) :
  shapeOK st ->
  exists st' units,
    Stages st = Some (tt, st')
    /\ inputWidth st' =
       strided (strided (strided (strided (inputWidth st) 1) 2) 2) 2
    /\ inputHeight st' =
       strided (strided (strided (strided (inputHeight st) 1) 2) 2) 2
    /\ resNet st' = resNet st ++ units
    /\ allMergeConsistent units.
Proof.
  intros Hok. unfold Stages.
  unfold bind at 1, get at 1. unfold bind at 1, get at 1.
  destruct (numBlockArray st) as [[[n0 n1] n2] n3].
  set (block := builderBlock st).
  destruct (MakeLayer_defined block 64 n0 1 st Hok ltac:(lia))
    as (st1 & u1 & R1 & W1 & H1 & N1 & M1); [intros _; lia|].
  assert (Hok1 : shapeOK st1)
    by (apply (shapeOK_strided st st1 1 1); auto; lia).
  destruct (MakeLayer_defined block 128 n1 2 st1 Hok1 ltac:(lia))
    as (st2 & u2 & R2 & W2 & H2 & N2 & M2); [intros _; lia|].
  assert (Hok2 : shapeOK st2)
    by (apply (shapeOK_strided st1 st2 2 2); auto; lia).
  destruct (MakeLayer_defined block 256 n2 2 st2 Hok2 ltac:(lia))
    as (st3 & u3 & R3 & W3 & H3 & N3 & M3); [intros _; lia|].
  assert (Hok3 : shapeOK st3)
    by (apply (shapeOK_strided st2 st3 2 2); auto; lia).
  destruct (MakeLayer_defined block 512 n3 2 st3 Hok3 ltac:(lia))
    as (st4 & u4 & R4 & W4 & H4 & N4 & M4); [intros _; lia|].
  exists st4, (u1 ++ u2 ++ u3 ++ u4).
  split.
  { rewrite (bind_run _ _ _ _ _ R1), (bind_run _ _ _ _ _ R2),
      (bind_run _ _ _ _ _ R3). exact R4. }
  split; [congruence|]. split; [congruence|].
  split; [rewrite N4, N3, N2, N1, <- !app_assoc; reflexivity|].
  unfold allMergeConsistent in *.
  repeat (apply Forall_app; split); assumption.
Qed.

Section ConstructorFacts.

Variable stemPadding : Z.
Variable poolOutSize : Z -> option Z.

Lemma Stem_run (st : ResNetState) :
  Stem stemPadding poolOutSize st =
  match stemShape stemPadding poolOutSize (inputWidth st), stemShape stemPadding poolOutSize (inputHeight st),
        ConvOutSize (inputHeight st) 7 2 stemPadding with
  | Some w, Some h, Some _ =>
      Some (tt,
            mkState
              (resNet st ++ stemNodes stemPadding (inputWidth st) (inputHeight st))
              (inputChannel st) w h (numClasses st)
              (downSampleInputWidth st) (downSampleInputHeight st)
              (downSampleInSize st) (numBlockArray st) (builderBlock st))
  | _, _, _ => None
  end.
Proof.
  destruct st as [net ic w h nc dw dh tracked counts block].
  unfold Stem, stemShape, stemNodes, bind, get, put, ret, defined,
    resNet_Add, option_bind.
  cbn -[ConvOutSize].
  destruct (ConvOutSize w 7 2 stemPadding) as [w1|];
    cbn -[ConvOutSize]; [|reflexivity].
  destruct (ConvOutSize h 7 2 stemPadding) as [h1|];
    cbn -[ConvOutSize]; [|destruct (poolOutSize w1); reflexivity].
  destruct (poolOutSize w1) as [w2|]; cbn -[ConvOutSize]; [|reflexivity].
  destruct (poolOutSize h1) as [h2|]; cbn -[ConvOutSize]; [|reflexivity].
  rewrite <- !app_assoc. reflexivity.
Qed.

Lemma Head_run (includeTop : bool) (st : ResNetState) :
  Head includeTop st =
  Some (tt, set_resNet (resNet st ++ headNodes includeTop (numClasses st))
              st).
Proof.
  unfold Head, headNodes, bind, get, put, ret, resNet_Add.
  destruct includeTop; cbn.
  - rewrite <- !app_assoc. reflexivity.
  - rewrite app_nil_r. destruct st; reflexivity.
Qed.

(** What a successful construction has built. *)
Lemma ResNet_new_inv (version ic iw ih : Z) (includeTop preTrained : bool)
    (nc : Z) (st : ResNetState) :
  ResNet_new stemPadding poolOutSize version ic iw ih includeTop preTrained nc = Built st ->
  exists block n0 n1 n2 n3 others u1 u2 u3 u4,
    map_find version ResNetConfig
    = Some ((block, (n0, n1, n2, n3)) :: others)
    /\ resNet st =
       stemNodes stemPadding iw ih ++ u1 ++ u2 ++ u3 ++ u4 ++ headNodes includeTop nc
    /\ stageOf (kindOf block) 64 64 n0 1 u1
    /\ stageOf (kindOf block)
         (SizeT.mul 64 (expansionFactor (kindOf block))) 128 n1 2 u2
    /\ stageOf (kindOf block)
         (SizeT.mul 128 (expansionFactor (kindOf block))) 256 n2 2 u3
    /\ stageOf (kindOf block)
         (SizeT.mul 256 (expansionFactor (kindOf block))) 512 n3 2 u4
    /\ downSampleInSize st
       = SizeT.mul 512 (expansionFactor (kindOf block)).
Proof.
  unfold ResNet_new. intros H.
  destruct (map_find version ResNetConfig)
    as [[|[block [[[n0 n1] n2] n3]] others]|]; try discriminate.
  destruct (preTrained && negb includeTop); [discriminate|].
  match type of H with
  | match ?run with _ => _ end = _ =>
      destruct run as [[[] st']|] eqn:Hrun; [|discriminate]
  end.
  injection H as ->.
  apply bind_inv in Hrun. destruct Hrun as ([] & st1 & Hstem & Hrun).
  apply bind_inv in Hrun. destruct Hrun as ([] & st2 & Hstages & Hhead).
  rewrite Stem_run in Hstem. cbn [inputWidth inputHeight initialState]
    in Hstem.
  destruct (stemShape stemPadding poolOutSize iw) as [w|]; [|discriminate].
  destruct (stemShape stemPadding poolOutSize ih) as [h|]; [|discriminate].
  destruct (ConvOutSize ih 7 2 stemPadding); [|discriminate].
  injection Hstem as <-.
  apply (Stages_inv _ _ n0 n1 n2 n3) in Hstages; [|reflexivity].
  cbv zeta in Hstages. cbn [builderBlock downSampleInSize resNet] in Hstages.
  destruct Hstages as (u1 & u2 & u3 & u4 & Hnet & S1 & S2 & S3 & S4 & Htr
                       & Hnc).
  rewrite Head_run in Hhead. injection Hhead as <-.
  exists block, n0, n1, n2, n3, others, u1, u2, u3, u4.
  split; [reflexivity|].
  split.
  { cbn [resNet set_resNet]. rewrite Hnet, Hnc. cbn [numClasses app].
    rewrite <- !app_assoc. reflexivity. }
  do 4 (split; [assumption|]).
  exact Htr.
Qed.

(** When the stem leaves a shape in the exact range, the construction
    succeeds. *)
Lemma ResNet_new_defined (version ic iw ih : Z)
    (includeTop preTrained : bool) (nc w h : Z) :
  In version supportedVersions ->
  preTrained && negb includeTop = false ->
  stemShape stemPadding poolOutSize iw = Some w -> stemShape stemPadding poolOutSize ih = Some h ->
  1 <= w < 2 ^ 53 -> 1 <= h < 2 ^ 53 ->
  exists st units,
    ResNet_new stemPadding poolOutSize version ic iw ih includeTop preTrained nc = Built st
    /\ resNet st = stemNodes stemPadding iw ih ++ units ++ headNodes includeTop nc
    /\ allMergeConsistent units
    /\ inputWidth st = strided (strided (strided (strided w 1) 2) 2) 2
    /\ inputHeight st = strided (strided (strided (strided h 1) 2) 2) 2.
Proof.
  intros Hv Hpre Hsw Hsh Hw Hh.
  assert (Hrow : exists block counts,
             map_find version ResNetConfig = Some [(block, counts)]).
  { unfold supportedVersions in Hv. cbn [In] in Hv.
    destruct Hv as [<-|[<-|[<-|[<-|[<-|[]]]]]]; eexists _, _; reflexivity. }
  destruct Hrow as (block & counts & Hrow).
  unfold ResNet_new. rewrite Hrow, Hpre.
  set (st1 := mkState _ _ _ _ _ _ _ _ counts block).
  assert (Hconv : exists h1, ConvOutSize ih 7 2 stemPadding = Some h1).
  { unfold stemShape, option_bind in Hsh.
    destruct (ConvOutSize ih 7 2 stemPadding) as [h1|];
      [eauto | discriminate]. }
  destruct Hconv as [h1 Hconv].
  pose proof (Stem_run st1) as Hstem.
  cbn [inputWidth inputHeight st1 initialState] in Hstem.
  rewrite Hsw, Hsh, Hconv in Hstem.
  match type of Hstem with
  | _ = Some (tt, ?s) => set (st2 := s) in Hstem
  end.
  destruct (Stages_defined st2) as (st3 & units & Hstages & W & H & Hnet
                                    & Hall).
  { unfold shapeOK, st2. cbn. lia. }
  rewrite (bind_run _ _ _ _ _ Hstem), (bind_run _ _ _ _ _ Hstages).
  rewrite Head_run.
  eexists _, units. split; [reflexivity|].
  split.
  { cbn [resNet set_resNet]. rewrite Hnet.
    assert (Hnc : numClasses st3 = nc).
    { apply Stages_inv with (n0 := fst (fst (fst counts)))
        (n1 := snd (fst (fst counts))) (n2 := snd (fst counts))
        (n3 := snd counts) in Hstages.
      - cbv zeta in Hstages.
        destruct Hstages as (_ & _ & _ & _ & _ & _ & _ & _ & _ & _ & Hnc).
        exact Hnc.
      - subst st2. cbn. now destruct counts as [[[? ?] ?] ?]. }
    rewrite Hnc. subst st2. cbn [resNet st1 initialState app].
    rewrite <- !app_assoc. reflexivity. }
  split; [exact Hall|].
  split; [exact W | exact H].
Qed.

End ConstructorFacts.

(** ** Counting the stages *)

Lemma receives_channels (kind : BlockKind) (inSize outSize stride : Z)
    (downSample : bool) (u : Layer) :
  receives kind inSize outSize stride downSample u ->
  residualChannels u = [unitChannels kind outSize].
Proof.
  destruct kind; cbn [receives].
  - intros (w & h & w1 & h1 & ->). reflexivity.
  - intros (width & w & h & w1 & h1 & w2 & h2 & _ & ->). reflexivity.
Qed.

Lemma stageOf_channels (kind : BlockKind)
    (tracked outSize numBlocks stride : Z) (units : list Layer) :
  stageOf kind tracked outSize numBlocks stride units ->
  flat_map residualChannels units =
  unitChannels kind (firstOutSize kind outSize)
  :: repeat (unitChannels kind outSize) (loopCount numBlocks)
  /\ List.length units = S (loopCount numBlocks).
Proof.
  intros (first & rest & -> & Hfirst & Hlen & Hall).
  split; [|cbn; now rewrite Hlen].
  cbn [flat_map]. rewrite (receives_channels _ _ _ _ _ _ Hfirst).
  cbn [app]. f_equal. rewrite <- Hlen. clear Hlen Hfirst.
  induction Hall as [|u rest Hu _ IH]; [reflexivity|].
  cbn [flat_map List.length repeat].
  rewrite (receives_channels _ _ _ _ _ _ Hu), IH. reflexivity.
Qed.

Lemma staticTableRow_unsupported (version : Z) :
  ~ In version supportedVersions -> staticTableRow version = None.
Proof.
  intros Hnot. unfold staticTableRow.
  repeat match goal with
         | |- context [version =? ?k] =>
             let E := fresh "E" in
             destruct (version =? k) eqn:E;
               [apply Z.eqb_eq in E; exfalso; apply Hnot;
                unfold supportedVersions; cbn; auto 10|]
         end.
  reflexivity.
Qed.

Lemma map_find_supported (version : Z) (block : string)
    (n0 n1 n2 n3 : Z) (others : list (string * (Z * Z * Z * Z))) :
  map_find version ResNetConfig = Some ((block, (n0, n1, n2, n3)) :: others)
  -> In (version, block, [n0; n1; n2; n3])
       [(18, "basicblock"%string, [2; 2; 2; 2]);
        (34, "basicblock"%string, [3; 4; 6; 3]);
        (50, "bottleneck"%string, [3; 4; 6; 3]);
        (101, "bottleneck"%string, [3; 4; 23; 3]);
        (152, "bottleneck"%string, [3; 8; 36; 3])].
Proof.
  unfold ResNetConfig. cbn [map_find]. intros H.
  repeat match type of H with
         | context [?k =? version] =>
             let E := fresh "E" in
             destruct (k =? version) eqn:E;
               [apply Z.eqb_eq in E; subst version;
                injection H as <- <- <- <- <- <-; cbn; auto 10|]
         end.
  discriminate.
Qed.

(** C4.  A network built for a version has the stages of that version's
    row of the static table: the row exists (the version is one of 18, 34,
    50, 101, 152), the network is the stem, four runs of residual units of
    the row's block kind whose lengths are the row's counts, and the head;
    no other version is built: its construction fails with
    [UnsupportedVersionError].  A supported version is built whenever the
    stem leaves a shape in the exact range. *)
Theorem ResNet_stage_counts_match_table (stemPadding : Z)
    (poolOutSize : Z -> option Z) (version ic iw ih : Z)
    (includeTop preTrained : bool) (nc : Z) :
  (forall st,
      ResNet_new stemPadding poolOutSize version ic iw ih includeTop
        preTrained nc = Built st ->
      exists block n0 n1 n2 n3 u1 u2 u3 u4,
        staticTableRow version = Some (block, [n0; n1; n2; n3])
        /\ resNet st =
           stemNodes stemPadding iw ih ++ u1 ++ u2 ++ u3 ++ u4
           ++ headNodes includeTop nc
        /\ Forall (fun u => exists i o s d, receives (kindOf block) i o s d u)
             (u1 ++ u2 ++ u3 ++ u4)
        /\ map (fun u => Z.of_nat (List.length u)) [u1; u2; u3; u4]
           = [n0; n1; n2; n3]
        /\ stageCounts (resNet st) =
           combine
             (map (fun base => base * expansionFactor (kindOf block))
                [64; 128; 256; 512])
             [n0; n1; n2; n3])
  /\ (~ In version supportedVersions ->
      staticTableRow version = None
      /\ exists st,
          ResNet_new stemPadding poolOutSize version ic iw ih includeTop
            preTrained nc = Failed UnsupportedVersionError st)
  /\ (In version supportedVersions ->
      preTrained && negb includeTop = false ->
      forall w h,
        stemShape stemPadding poolOutSize iw = Some w ->
        stemShape stemPadding poolOutSize ih = Some h ->
        1 <= w < 2 ^ 53 -> 1 <= h < 2 ^ 53 ->
        exists st,
          ResNet_new stemPadding poolOutSize version ic iw ih includeTop
            preTrained nc = Built st).
Proof.
  split; [|split].
  - intros st H. apply ResNet_new_inv in H.
    destruct H as (block & n0 & n1 & n2 & n3 & others & u1 & u2 & u3 & u4
                   & Hrow & Hnet & S1 & S2 & S3 & S4 & _).
    exists block, n0, n1, n2, n3, u1, u2, u3, u4.
    assert (Hunits : Forall
              (fun u => exists i o s d, receives (kindOf block) i o s d u)
              (u1 ++ u2 ++ u3 ++ u4)).
    { repeat (apply Forall_app; split);
        match goal with
        | S : stageOf _ _ _ _ _ ?u |- Forall _ ?u =>
            destruct S as (first & rest & -> & Hf & _ & Hall);
              constructor; [eauto 10|];
              eapply Forall_impl; [|exact Hall]; cbn beta; eauto 10
        end. }
    apply stageOf_channels in S1, S2, S3, S4.
    destruct S1 as [C1 L1], S2 as [C2 L2], S3 as [C3 L3], S4 as [C4 L4].
    assert (Hchan : flat_map residualChannels (resNet st) =
                    flat_map residualChannels u1
                    ++ flat_map residualChannels u2
                    ++ flat_map residualChannels u3
                    ++ flat_map residualChannels u4).
    { rewrite Hnet, !flat_map_app.
      replace (flat_map residualChannels (headNodes includeTop nc))
        with (@nil Z) by (destruct includeTop; reflexivity).
      rewrite app_nil_r. reflexivity. }
    unfold stageCounts. rewrite Hchan, C1, C2, C3, C4.
    cbn [map]. rewrite L1, L2, L3, L4.
    apply map_find_supported in Hrow. cbn [In] in Hrow.
    destruct Hrow as [E|[E|[E|[E|[E|[]]]]]];
      injection E as <- <- <- <- <- <-;
      (split; [reflexivity|]); (split; [exact Hnet|]);
      (split; [exact Hunits|]); split; vm_compute; reflexivity.
  - intros Hnot. split; [now apply staticTableRow_unsupported|].
    unfold ResNet_new. rewrite (ResNetConfig_unsupported _ Hnot).
    eexists. reflexivity.
  - intros Hv Hpre w h Hsw Hsh Hw Hh.
    destruct (ResNet_new_defined stemPadding poolOutSize version ic iw ih
                includeTop preTrained nc w h Hv Hpre Hsw Hsh Hw Hh)
      as (st & _ & Hrun & _).
    exists st. exact Hrun.
Qed.

(** ResNet18 on a 224x224 image: four stages of two basic units. *)
Lemma ResNet_stage_counts_match_table_witness :
  exists st,
    ResNet_new 3 maxPool3x3s2 18 3 224 224 true false 1000 = Built st
    /\ stageCounts (resNet st) = [(64, 2); (128, 2); (256, 2); (512, 2)].
Proof.
  destruct (ResNet_new 3 maxPool3x3s2 18 3 224 224 true false 1000)
    as [st| |] eqn:E; try (exfalso; vm_compute in E; discriminate).
  exists st. split; [reflexivity|].
  destruct (ResNet_stage_counts_match_table 3 maxPool3x3s2 18 3 224 224
              true false 1000) as [Hbuilt _].
  destruct (Hbuilt st E) as (block & n0 & n1 & n2 & n3 & u1 & u2 & u3 & u4
                             & Hrow & _ & _ & _ & Hcounts).
  injection Hrow as <- <- <- <- <-.
  exact Hcounts.
Defined.

(** ** Merge consistency of a built network (C7) *)




(** ** The shape of ResNet18 (C3) *)

(** C3.  ResNet18 on an input of 3 channels and 224x224, with a stem
    convolution padded by 3 and a stem pooling that takes 112 to 56 (those
    of the published architecture), is built, and ends with the tracked
    shape 7x7 and the tracked channel count 512, with or without the
    classification head. *)
Theorem ResNet18_final_shape (stemPadding : Z)
    (poolOutSize : Z -> option Z) (includeTop preTrained : bool) (nc : Z) :
  stemPadding = 3 ->
  poolOutSize 112 = Some 56 ->
  preTrained && negb includeTop = false ->
  exists st,
    ResNet_new stemPadding poolOutSize 18 3 224 224 includeTop preTrained nc
    = Built st
    /\ inputWidth st = 7
    /\ inputHeight st = 7
    /\ downSampleInSize st = 512.
Proof.
  intros -> Hpool Hpre.
  assert (Hstem : stemShape 3 poolOutSize 224 = Some 56).
  { unfold stemShape.
    change (ConvOutSize 224 7 2 3) with (Some 112). exact Hpool. }
  destruct (ResNet_new_defined 3 poolOutSize 18 3 224 224
              includeTop preTrained nc 56 56)
    as (st & units & Hrun & _ & _ & W & H);
    [unfold supportedVersions; cbn; auto | assumption..| lia | lia |].
  exists st. split; [exact Hrun|].
  split; [rewrite W; reflexivity|].
  split; [rewrite H; reflexivity|].
  apply ResNet_new_inv in Hrun.
  destruct Hrun as (block & n0 & n1 & n2 & n3 & others & u1 & u2 & u3 & u4
                    & Hrow & _ & _ & _ & _ & _ & Htr).
  injection Hrow as <- <- <- <- <- <-.
  rewrite Htr. reflexivity.
Qed.

Lemma ResNet18_final_shape_witness :
  exists st,
    ResNet_new 3 maxPool3x3s2 18 3 224 224 false false 1000 = Built st
    /\ inputWidth st = 7
    /\ inputHeight st = 7
    /\ downSampleInSize st = 512.
Proof.
  apply (ResNet18_final_shape 3 maxPool3x3s2 false false 1000);
    reflexivity.
Defined.

(** ** Rejected configurations (C8, C9) *)

(** C8.  For a version outside 18, 34, 50, 101, 152 (200, say) the
    construction fails with [UnsupportedVersionError], the network still
    empty. *)
Theorem ResNet_unsupported_version_fails (stemPadding : Z)
    (poolOutSize : Z -> option Z) (version ic iw ih : Z)
    (includeTop preTrained : bool) (nc : Z) :
  ~ In version supportedVersions ->
  exists st,
    ResNet_new stemPadding poolOutSize version ic iw ih includeTop
      preTrained nc = Failed UnsupportedVersionError st
    /\ resNet st = [].
Proof.
  intros Hnot. unfold ResNet_new.
  rewrite (ResNetConfig_unsupported _ Hnot).
  eexists. split; reflexivity.
Qed.

Lemma ResNet_unsupported_version_fails_witness :
  exists st,
    ResNet_new 3 maxPool3x3s2 200 3 224 224 true false 1000
    = Failed UnsupportedVersionError st
    /\ resNet st = [].
Proof.
  apply (ResNet_unsupported_version_fails 3 maxPool3x3s2 200).
  unfold supportedVersions. cbn. intros H.
  repeat (destruct H as [H|H]; [discriminate|]). exact H.
Defined.

(** C9.  With [preTrained] and without [includeTop] the construction
    fails, the network still empty; for a supported version the error is
    [InvalidConfigurationError] (an unsupported version is reported
    first). *)
Theorem ResNet_pretrained_requires_top (stemPadding : Z)
    (poolOutSize : Z -> option Z) (version ic iw ih nc : Z) :
  exists e st,
    ResNet_new stemPadding poolOutSize version ic iw ih false true nc
    = Failed e st
    /\ resNet st = []
    /\ (In version supportedVersions -> e = InvalidConfigurationError)
    /\ (~ In version supportedVersions -> e = UnsupportedVersionError).
Proof.
  unfold ResNet_new.
  destruct (map_find version ResNetConfig)
    as [[|[block counts] others]|] eqn:E.
  - exfalso. revert E. unfold ResNetConfig. cbn [map_find].
    repeat match goal with
           | |- context [?k =? version] => destruct (k =? version)
           end; discriminate.
  - cbn [andb negb]. eexists _, _. split; [reflexivity|].
    split; [reflexivity|]. split; [reflexivity|].
    intros Hnot. rewrite (ResNetConfig_unsupported _ Hnot) in E.
    discriminate.
  - eexists _, _. split; [reflexivity|]. split; [reflexivity|].
    split; [|reflexivity].
    intros Hv. exfalso. unfold supportedVersions in Hv. cbn [In] in Hv.
    destruct Hv as [<-|[<-|[<-|[<-|[<-|[]]]]]]; discriminate.
Qed.

(** * Further properties of the builder *)

(** ** [ConvOutSize] *)



(** X2.  Padding can be folded into the size: a padded convolution has the
    output size of the unpadded one on the input enlarged by twice the
    padding (in [size_t] arithmetic), for all arguments. *)
Theorem ConvOutSize_padding_folds (size k s padding : Z) :
  ConvOutSize size k s padding =
  ConvOutSize (SizeT.add size (SizeT.mul 2 padding)) k s 0.
Proof.
  unfold ConvOutSize. rewrite !SizeTFacts.sub_add_mul.
  replace (SizeT.wrap (SizeT.add size (SizeT.mul 2 padding) - k + 2 * 0))
    with (SizeT.wrap (size - k + 2 * padding)); [reflexivity|].
  unfold SizeT.add, SizeT.mul, SizeT.wrap.
  rewrite Z.mul_0_r, Z.add_0_r.
  rewrite Zminus_mod_idemp_l.
  replace (size + (2 * padding) mod SizeT.modulus - k)
    with (size - k + (2 * padding) mod SizeT.modulus) by ring.
  rewrite Zplus_mod_idemp_r. reflexivity.
Qed.

(** X3.  In the exact range, with a kernel larger than twice the padding,
    the output size is between 1 and the input size, and it grows with the
    input size. *)
Theorem ConvOutSize_bounded_and_monotone (size size' k s padding : Z) :
  1 <= s -> 0 <= padding -> 2 * padding + 1 <= k ->
  k <= size + 2 * padding -> size <= size' -> size' < 2 ^ 53 ->
  exists r r',
    ConvOutSize size k s padding = Some r
    /\ ConvOutSize size' k s padding = Some r'
    /\ 1 <= r <= size
    /\ r <= r' <= size'.
Proof.
  intros Hs Hp Hk Hfit Hle Hmax.
  assert (Q : forall x, k <= x + 2 * padding -> x < 2 ^ 53 ->
              0 <= (x - k + 2 * padding) / s <= x - 1).
  { intros x Hx Hx53. split; [apply Z.div_pos; lia|].
    apply Z.div_le_upper_bound; [lia|]. nia. }
  pose proof (Q size Hfit ltac:(lia)) as Q1.
  pose proof (Q size' ltac:(lia) Hmax) as Q2.
  assert (Hmono : (size - k + 2 * padding) / s
                  <= (size' - k + 2 * padding) / s)
    by (apply Z.div_le_mono; lia).
  exists ((size - k + 2 * padding) / s + 1),
         ((size' - k + 2 * padding) / s + 1).
  split; [apply ConvOutSize_exact; unfold SizeT.modulus; lia|].
  split; [apply ConvOutSize_exact; unfold SizeT.modulus; lia|].
  lia.
Qed.

Lemma ConvOutSize_bounded_and_monotone_witness :
  exists r r',
    ConvOutSize 56 3 2 1 = Some r /\ ConvOutSize 224 3 2 1 = Some r'
    /\ 1 <= r <= 56 /\ r <= r' <= 224.
Proof.
  apply (ConvOutSize_bounded_and_monotone 56 224 3 2 1); lia.
Defined.

(** ** [ConvolutionBlock] *)



(** X5.  With [downSample] set, a [ConvolutionBlock] call reads the override
    shape only: the shape tracked before the call has no influence on the
    node it builds or on the state it leaves, and the call is the one
    without [downSample] made after storing the override shape. *)
Theorem ConvolutionBlock_downSample_reads_override (baseLayer : list Layer)
    (inSize outSize sW sH kW kH pW pH dw dh a b : Z) (st : ResNetState) :
  ConvolutionBlock baseLayer inSize outSize sW sH kW kH pW pH true dw dh
    (set_inputWidth a (set_inputHeight b st))
  = ConvolutionBlock baseLayer inSize outSize sW sH kW kH pW pH true dw dh st
  /\ ConvolutionBlock baseLayer inSize outSize sW sH kW kH pW pH true dw dh st
     = ConvolutionBlock baseLayer inSize outSize sW sH kW kH pW pH false 0 0
         (set_inputHeight dh (set_inputWidth dw st)).
Proof.
  rewrite !ConvolutionBlock_run. cbv zeta.
  destruct st as [net ic w h nc sw sh tracked counts block]. cbn.
  destruct (ConvOutSize dw kW sW pW); [|split; reflexivity].
  destruct (ConvOutSize dh kH sH pH); split; reflexivity.
Qed.

(** ** [BasicBlock] *)

(** X6.  In the exact range the projection shortcut does not change where a
    [BasicBlock] call leaves the tracked shape: with and without
    [downSample] the call returns with the input shape strided once, with
    the same snapshot and the same tracked channel count. *)
Theorem BasicBlock_shape_independent_of_downSample
    (inSize outSize sW sH : Z) (st : ResNetState) :
  shapeOK st -> 1 <= sW -> 1 <= sH ->
  exists st1 st2,
    BasicBlock inSize outSize sW sH true st = Some (tt, st1)
    /\ BasicBlock inSize outSize sW sH false st = Some (tt, st2)
    /\ inputWidth st1 = strided (inputWidth st) sW
    /\ inputHeight st1 = strided (inputHeight st) sH
    /\ inputWidth st2 = inputWidth st1
    /\ inputHeight st2 = inputHeight st1
    /\ downSampleInputWidth st2 = downSampleInputWidth st1
    /\ downSampleInputHeight st2 = downSampleInputHeight st1
    /\ downSampleInSize st2 = downSampleInSize st1
    /\ shapeOK st1.
Proof.
  intros Hok HsW HsH.
  eexists _, _.
  split; [apply BasicBlock_defined; assumption|].
  split; [apply BasicBlock_defined; assumption|].
  destruct Hok as [Hw Hh].
  pose proof (strided_bounds (inputWidth st) sW ltac:(lia) HsW).
  pose proof (strided_bounds (inputHeight st) sH ltac:(lia) HsH).
  unfold shapeOK.
  cbn [inputWidth inputHeight downSampleInputWidth downSampleInputHeight
       downSampleInSize].
  repeat split; try reflexivity; lia.
Qed.

Lemma BasicBlock_shape_independent_of_downSample_witness :
  exists st1 st2,
    BasicBlock 64 128 2 2 true stage1State = Some (tt, st1)
    /\ BasicBlock 64 128 2 2 false stage1State = Some (tt, st2)
    /\ inputWidth st1 = 28 /\ inputWidth st2 = 28.
Proof.
  destruct (BasicBlock_shape_independent_of_downSample 64 128 2 2
              stage1State)
    as (st1 & st2 & R1 & R2 & W1 & _ & W2 & _);
    [unfold shapeOK; cbn; lia | lia | lia |].
  exists st1, st2. split; [exact R1|]. split; [exact R2|].
  split; [rewrite W1 | rewrite W2, W1]; reflexivity.
Defined.

(** X7.  [BasicBlock] itself does not guard the shortcut: called in the
    exact range without [downSample] and with a stride of 2 or more on an
    input at least 2 wide, it returns, and the unit it appends merges a
    main path and an identity of different shapes. *)
Theorem BasicBlock_strided_identity_mismatch
    (inSize outSize sW sH : Z) (st : ResNetState) :
  shapeOK st -> 2 <= inputWidth st -> 2 <= sW -> 1 <= sH ->
  exists st' unit,
    BasicBlock inSize outSize sW sH false st = Some (tt, st')
    /\ resNet st' = resNet st ++ [unit]
    /\ isResidualBlock unit = true
    /\ mergeConsistent unit = false.
Proof.
  intros Hok Hw2 HsW HsH.
  eexists _, _.
  split; [apply BasicBlock_defined; [assumption | lia | lia]|].
  split; [reflexivity|]. split; [reflexivity|].
  destruct Hok as [Hw Hh].
  pose proof (strided_bounds (inputWidth st) sW ltac:(lia) ltac:(lia)) as Bw.
  pose proof (strided_bounds (inputHeight st) sH ltac:(lia) HsH) as Bh.
  assert (Hlt : strided (inputWidth st) sW < inputWidth st).
  { unfold strided.
    assert ((inputWidth st - 1) / sW < inputWidth st - 1)
      by (apply Z.div_lt; lia).
    lia. }
  unfold mergeConsistent, basicUnit.
  cbn -[ConvOutSize Z.eqb strided shape_eqb].
  shape_steps.
  unfold shape_eqb. cbn [fst snd].
  destruct (strided (inputWidth st) sW =? inputWidth st) eqn:E;
    [apply Z.eqb_eq in E; lia | reflexivity].
Qed.

Lemma BasicBlock_strided_identity_mismatch_witness :
  exists st' unit,
    BasicBlock 64 64 2 2 false stage1State = Some (tt, st')
    /\ resNet st' = resNet stage1State ++ [unit]
    /\ isResidualBlock unit = true
    /\ mergeConsistent unit = false.
Proof.
  apply (BasicBlock_strided_identity_mismatch 64 64 2 2 stage1State);
    [unfold shapeOK; cbn; lia | cbn; lia | lia | lia].
Defined.

(** ** [BottleNeck] *)

(** X8.  In the exact range, for [size_t] arguments whose
    [floor(baseWidth * outSize / 64)] fits an [int] (is below [2^31]), a
    [BottleNeck] call returns with and without [downSample], and both calls
    leave the same tracked shape (the input shape strided once), the same
    snapshot and the tracked channel count untouched. *)
Theorem BottleNeck_shape_independent_of_downSample
    (inSize outSize sW sH baseWidth groups : Z) (st : ResNetState) :
  shapeOK st -> 1 <= sW -> 1 <= sH ->
  SizeT.in_range baseWidth -> SizeT.in_range outSize ->
  baseWidth * outSize / 64 < 2 ^ 31 ->
  exists st1 st2,
    BottleNeck inSize outSize sW sH true baseWidth groups st = Some (tt, st1)
    /\ BottleNeck inSize outSize sW sH false baseWidth groups st
       = Some (tt, st2)
    /\ inputWidth st1 = strided (inputWidth st) sW
    /\ inputHeight st1 = strided (inputHeight st) sH
    /\ inputWidth st2 = inputWidth st1
    /\ inputHeight st2 = inputHeight st1
    /\ downSampleInputWidth st2 = downSampleInputWidth st1
    /\ downSampleInputHeight st2 = downSampleInputHeight st1
    /\ downSampleInSize st1 = downSampleInSize st
    /\ downSampleInSize st2 = downSampleInSize st
    /\ shapeOK st1.
Proof.
  intros Hok HsW HsH Hb Ho Hfit. unfold SizeT.in_range in Hb, Ho.
  pose proof (bottleNeckWidth_spec baseWidth outSize groups
                ltac:(lia) ltac:(lia)) as Hwd.
  destruct (baseWidth * outSize / 64 <? 2 ^ 31) eqn:E;
    [|apply Z.ltb_ge in E; lia].
  eexists _, _.
  split; [eapply BottleNeck_defined; eassumption|].
  split; [eapply BottleNeck_defined; eassumption|].
  destruct Hok as [Hw Hh].
  pose proof (strided_bounds (inputWidth st) sW ltac:(lia) HsW).
  pose proof (strided_bounds (inputHeight st) sH ltac:(lia) HsH).
  unfold shapeOK.
  cbn [inputWidth inputHeight downSampleInputWidth downSampleInputHeight
       downSampleInSize].
  repeat split; try reflexivity; lia.
Qed.

Lemma BottleNeck_shape_independent_of_downSample_witness :
  exists st1 st2,
    BottleNeck 64 128 2 2 true 64 1 stage1State = Some (tt, st1)
    /\ BottleNeck 64 128 2 2 false 64 1 stage1State = Some (tt, st2)
    /\ inputWidth st1 = 28 /\ inputWidth st2 = 28.
Proof.
  destruct (BottleNeck_shape_independent_of_downSample 64 128 2 2 64 1
              stage1State)
    as (st1 & st2 & R1 & R2 & W1 & _ & W2 & _);
    try (unfold SizeT.in_range, SizeT.modulus; lia);
    [unfold shapeOK; cbn; lia | vm_compute; reflexivity |].
  exists st1, st2. split; [exact R1|]. split; [exact R2|].
  split; [rewrite W1 | rewrite W2, W1]; reflexivity.
Defined.

(** ** [MakeLayer] *)

(** In the exact range every pass of the loop of the basic branch appends
    the same unit and leaves the shape and the tracked count as they
    were. *)
Lemma basic_loop_explicit (outSize : Z) (n : nat) :
  forall st,
    shapeOK st ->
    exists st',
      times n (tracked' <- get downSampleInSize ;;
               BasicBlock tracked' outSize 1 1 false) st = Some (tt, st')
      /\ resNet st' =
         resNet st ++
         repeat (basicUnit (downSampleInSize st) outSize 1 1 false
                   (inputWidth st) (inputHeight st)
                   (inputWidth st) (inputHeight st)) n
      /\ inputWidth st' = inputWidth st
      /\ inputHeight st' = inputHeight st
      /\ downSampleInSize st' = downSampleInSize st.
Proof.
  induction n as [|n IH]; intros st Hok.
  - exists st. cbn [repeat]. rewrite app_nil_r. repeat split.
  - cbn [times]. unfold bind at 1. unfold bind at 1, get at 1.
    rewrite BasicBlock_defined by (auto; lia).
    rewrite !strided_one.
    match goal with
    | |- context [times n _ ?s] => destruct (IH s) as (st' & H)
    end.
    { exact Hok. }
    destruct H as (Hrun & Hnet & Hw & Hh & Htr).
    exists st'. cbn [resNet inputWidth inputHeight downSampleInSize] in *.
    split; [exact Hrun|].
    split; [rewrite Hnet, <- app_assoc; reflexivity|].
    repeat split; assumption.
Qed.

Lemma bottleNeck_loop_explicit (outSize width : Z) (n : nat) :
  bottleNeckWidth 64 outSize 1 = Some width ->
  forall st,
    shapeOK st ->
    exists st',
      times n (tracked' <- get downSampleInSize ;;
               BottleNeck tracked' outSize 1 1 false 64 1) st
      = Some (tt, st')
      /\ resNet st' =
         resNet st ++
         repeat (bottleNeckUnit (downSampleInSize st) outSize 1 1 false width
                   (inputWidth st) (inputHeight st)
                   (inputWidth st) (inputHeight st)
                   (inputWidth st) (inputHeight st)) n
      /\ inputWidth st' = inputWidth st
      /\ inputHeight st' = inputHeight st
      /\ downSampleInSize st' = downSampleInSize st.
Proof.
  intros Hwidth.
  induction n as [|n IH]; intros st Hok.
  - exists st. cbn [repeat]. rewrite app_nil_r. repeat split.
  - cbn [times]. unfold bind at 1. unfold bind at 1, get at 1.
    rewrite (BottleNeck_defined _ _ _ _ _ _ _ width) by (auto; lia).
    rewrite !strided_one.
    match goal with
    | |- context [times n _ ?s] => destruct (IH s) as (st' & H)
    end.
    { exact Hok. }
    destruct H as (Hrun & Hnet & Hw & Hh & Htr).
    exists st'. cbn [resNet inputWidth inputHeight downSampleInSize] in *.
    split; [exact Hrun|].
    split; [rewrite Hnet, <- app_assoc; reflexivity|].
    repeat split; assumption.
Qed.

Lemma bottleNeckWidth_of_defaults (outSize : Z) :
  0 <= outSize < 2 ^ 31 -> bottleNeckWidth 64 outSize 1 = Some outSize.
Proof.
  intros Ho. rewrite bottleNeckWidth_spec by lia.
  replace (64 * outSize / 64) with outSize
    by (rewrite Z.mul_comm, Z.div_mul; lia).
  destruct (outSize <? 2 ^ 31) eqn:E; [|apply Z.ltb_ge in E; lia].
  rewrite SizeTFacts.mul_one; [reflexivity|].
  unfold SizeT.in_range, SizeT.modulus. lia.
Qed.

(** In the exact range a stage is its first unit followed by copies of one
    unit. *)
Lemma MakeLayer_explicit (block : string) (outSize numBlocks stride : Z)
    (st : ResNetState) :
  shapeOK st -> 1 <= stride ->
  (kindOf block = BottleNeckKind -> 0 <= outSize < 2 ^ 31) ->
  exists st',
    MakeLayer block outSize numBlocks stride st = Some (tt, st')
    /\ resNet st' =
       resNet st ++
       stageFirstUnit (kindOf block) (downSampleInSize st) outSize stride
         (inputWidth st) (inputHeight st)
       :: repeat (stageRestUnit (kindOf block) outSize
                    (strided (inputWidth st) stride)
                    (strided (inputHeight st) stride))
            (loopCount numBlocks)
    /\ inputWidth st' = strided (inputWidth st) stride
    /\ inputHeight st' = strided (inputHeight st) stride
    /\ downSampleInSize st'
       = SizeT.mul outSize (expansionFactor (kindOf block)).
Proof.
  intros Hok Hs Hout.
  unfold MakeLayer, kindOf, stageFirstUnit, stageRestUnit, firstDownSample
    in *.
  destruct (String.eqb block "basicblock").
  - cbn [expansionFactor]. cbv zeta.
    unfold bind at 1, get at 1. unfold bind at 1.
    rewrite BasicBlock_defined by auto.
    unfold bind at 1, put at 1.
    match goal with
    | |- context [times ?n _ ?s] =>
        destruct (basic_loop_explicit outSize n s) as (st' & H)
    end.
    { eapply (shapeOK_strided st _ stride stride); eauto. }
    destruct H as (Hrun & Hnet & Hw & Hh & Htr).
    exists st'.
    cbn [resNet inputWidth inputHeight downSampleInSize
         set_downSampleInSize] in *.
    split; [exact Hrun|].
    split; [rewrite Hnet, <- app_assoc; reflexivity|].
    repeat split; assumption.
  - cbn [expansionFactor]. cbv zeta.
    specialize (Hout eq_refl).
    pose proof (bottleNeckWidth_of_defaults outSize Hout) as Hwidth.
    unfold bind at 1, get at 1. unfold bind at 1.
    rewrite (BottleNeck_defined _ _ _ _ _ _ _ outSize) by auto.
    unfold bind at 1, put at 1.
    match goal with
    | |- context [times ?n _ ?s] =>
        destruct (bottleNeck_loop_explicit outSize outSize n Hwidth s)
          as (st' & H)
    end.
    { eapply (shapeOK_strided st _ stride stride); eauto. }
    destruct H as (Hrun & Hnet & Hw & Hh & Htr).
    exists st'.
    cbn [resNet inputWidth inputHeight downSampleInSize
         set_downSampleInSize] in *.
    split; [exact Hrun|].
    split; [rewrite Hnet, <- app_assoc; reflexivity|].
    repeat split; assumption.
Qed.

(** X10.  [MakeLayer] rejects no block name: every name other than
    "basicblock" (a misspelling, the empty name) builds exactly what
    "bottleneck" builds. *)
Theorem MakeLayer_unknown_name_builds_bottleneck (block : string)
    (outSize numBlocks stride : Z) (st : ResNetState) :
  block <> "basicblock"%string ->
  MakeLayer block outSize numBlocks stride st
  = MakeLayer "bottleneck" outSize numBlocks stride st.
Proof.
  intros Hne. unfold MakeLayer.
  apply String.eqb_neq in Hne. rewrite Hne. reflexivity.
Qed.

Lemma MakeLayer_unknown_name_builds_bottleneck_witness :
  MakeLayer "BasicBlock" 64 3 1 stage1State
  = MakeLayer "bottleneck" 64 3 1 stage1State.
Proof.
  apply MakeLayer_unknown_name_builds_bottleneck. discriminate.
Defined.

(** X11.  In the exact range a stage that [MakeLayer] returns from is its
    first unit followed by [(numBlocks - 1) mod 2^64] copies of one and the
    same unit, all at the shape the first block has left; the tracked shape
    ends strided once and stays in the exact range. *)
Theorem MakeLayer_stage_is_first_then_copies (block : string)
    (outSize numBlocks stride : Z) (st st' : ResNetState) :
  shapeOK st -> 1 <= stride ->
  (kindOf block = BottleNeckKind -> 0 <= outSize < 2 ^ 31) ->
  MakeLayer block outSize numBlocks stride st = Some (tt, st') ->
  resNet st' =
  resNet st ++
  stageFirstUnit (kindOf block) (downSampleInSize st) outSize stride
    (inputWidth st) (inputHeight st)
  :: repeat (stageRestUnit (kindOf block) outSize
               (strided (inputWidth st) stride)
               (strided (inputHeight st) stride))
       (Z.to_nat (SizeT.wrap (numBlocks - 1)))
  /\ inputWidth st' = strided (inputWidth st) stride
  /\ inputHeight st' = strided (inputHeight st) stride
  /\ shapeOK st'.
Proof.
  intros Hok Hs Hout Hrun.
  destruct (MakeLayer_explicit block outSize numBlocks stride st Hok Hs Hout)
    as (st'' & Hrun' & Hnet & Hw & Hh & _).
  rewrite Hrun in Hrun'. injection Hrun' as <-.
  split; [exact Hnet|]. split; [exact Hw|]. split; [exact Hh|].
  apply (shapeOK_strided st st' stride stride); assumption.
Qed.

Lemma MakeLayer_stage_is_first_then_copies_witness :
  exists st',
    MakeLayer "bottleneck" 128 4 2 stage1State = Some (tt, st')
    /\ inputWidth st' = 28 /\ inputHeight st' = 28
    /\ List.length (resNet st') = 4%nat.
Proof.
  destruct (MakeLayer "bottleneck" 128 4 2 stage1State)
    as [[[] st']|] eqn:E; [|exfalso; vm_compute in E; discriminate].
  destruct (MakeLayer_stage_is_first_then_copies "bottleneck" 128 4 2
              stage1State st') as (Hnet & Hw & Hh & _);
    [unfold shapeOK; cbn; lia | lia | intros _; lia | exact E |].
  exists st'. split; [reflexivity|].
  split; [rewrite Hw; reflexivity|].
  split; [rewrite Hh; reflexivity|].
  rewrite Hnet. reflexivity.
Defined.

(** *** Shape inference over a stage *)

Lemma outShape_cons (u : Layer) (units : list Layer) (sh sh' : Z * Z) :
  outShape u sh = Some sh' ->
  outShape (Sequential (u :: units)) sh = outShape (Sequential units) sh'.
Proof.
  intros H. cbn [outShape fold_left option_bind]. rewrite H. reflexivity.
Qed.

Lemma outShape_repeat (u : Layer) (sh : Z * Z) (n : nat) :
  outShape u sh = Some sh ->
  outShape (Sequential (repeat u n)) sh = Some sh.
Proof.
  intros H. induction n as [|n IH]; [reflexivity|].
  cbn [repeat]. rewrite (outShape_cons _ _ _ _ H). exact IH.
Qed.

Lemma outShape_basicUnit (inSize outSize sW sH : Z) (downSample : bool)
    (w h : Z) :
  1 <= w < 2 ^ 53 -> 1 <= h < 2 ^ 53 -> 1 <= sW -> 1 <= sH ->
  (downSample = true \/ (sW = 1 /\ sH = 1)) ->
  outShape
    (basicUnit inSize outSize sW sH downSample w h
       (strided w sW) (strided h sH)) (w, h)
  = Some (strided w sW, strided h sH).
Proof.
  intros Hw Hh HsW HsH Hds.
  pose proof (strided_bounds w sW ltac:(lia) HsW) as Bw.
  pose proof (strided_bounds h sH ltac:(lia) HsH) as Bh.
  unfold basicUnit.
  cbn -[ConvOutSize Z.eqb strided shape_eqb].
  shape_steps.
  destruct downSample.
  - shape_steps. reflexivity.
  - destruct Hds as [Hds | [-> ->]]; [discriminate|].
    shape_steps. reflexivity.
Qed.

Lemma outShape_bottleNeckUnit (inSize outSize sW sH : Z)
    (downSample : bool) (width w h : Z) :
  1 <= w < 2 ^ 53 -> 1 <= h < 2 ^ 53 -> 1 <= sW -> 1 <= sH ->
  (downSample = true \/ (sW = 1 /\ sH = 1)) ->
  outShape
    (bottleNeckUnit inSize outSize sW sH downSample width w h w h
       (strided w sW) (strided h sH)) (w, h)
  = Some (strided w sW, strided h sH).
Proof.
  intros Hw Hh HsW HsH Hds.
  pose proof (strided_bounds w sW ltac:(lia) HsW) as Bw.
  pose proof (strided_bounds h sH ltac:(lia) HsH) as Bh.
  unfold bottleNeckUnit.
  cbn -[ConvOutSize Z.eqb strided shape_eqb SizeT.mul].
  shape_steps.
  destruct downSample.
  - shape_steps. reflexivity.
  - destruct Hds as [Hds | [-> ->]]; [discriminate|].
    shape_steps. reflexivity.
Qed.

(** X12.  In the exact range the units of a stage pass shape inference end
    to end: taken as one sequence and fed the shape the stage was entered
    with, every convolution receives exactly the shape it was constructed
    with, the two branches of every merge agree, and the sequence outputs
    the tracked shape the stage leaves. *)
Theorem MakeLayer_stage_passes_shape_inference (block : string)
    (outSize numBlocks stride : Z) (st : ResNetState) :
  shapeOK st -> 1 <= stride ->
  (kindOf block = BottleNeckKind -> 0 <= outSize < 2 ^ 31) ->
  exists st' units,
    MakeLayer block outSize numBlocks stride st = Some (tt, st')
    /\ resNet st' = resNet st ++ units
    /\ outShape (Sequential units) (inputWidth st, inputHeight st)
       = Some (inputWidth st', inputHeight st')
    /\ Forall (fun u => mergeConsistent u = true) units.
Proof.
  intros Hok Hs Hout.
  destruct (MakeLayer_explicit block outSize numBlocks stride st Hok Hs Hout)
    as (st' & Hrun & Hnet & Hw & Hh & _).
  eexists st', _. split; [exact Hrun|]. split; [exact Hnet|].
  destruct Hok as [Hw0 Hh0].
  pose proof (strided_bounds (inputWidth st) stride ltac:(lia) Hs) as Bw.
  pose proof (strided_bounds (inputHeight st) stride ltac:(lia) Hs) as Bh.
  pose proof (firstDownSample_strided (kindOf block) (downSampleInSize st)
                outSize stride) as Hds.
  rewrite Hw, Hh.
  unfold stageFirstUnit, stageRestUnit. cbv zeta.
  destruct (kindOf block).
  - split.
    + erewrite outShape_cons
        by (apply outShape_basicUnit; auto; lia).
      apply outShape_repeat.
      pose proof (outShape_basicUnit
                    (SizeT.mul outSize (expansionFactor BasicKind)) outSize
                    1 1 false (strided (inputWidth st) stride)
                    (strided (inputHeight st) stride)) as Hu.
      rewrite !strided_one in Hu. apply Hu; auto; lia.
    + constructor; [apply basicUnit_merge; auto; lia|].
      apply Forall_forall. intros u Hu. apply repeat_spec in Hu. subst u.
      pose proof (basicUnit_merge
                    (SizeT.mul outSize (expansionFactor BasicKind)) outSize
                    1 1 false (strided (inputWidth st) stride)
                    (strided (inputHeight st) stride)) as Hm.
      rewrite !strided_one in Hm. apply Hm; auto; lia.
  - split.
    + erewrite outShape_cons
        by (apply outShape_bottleNeckUnit; auto; lia).
      apply outShape_repeat.
      pose proof (outShape_bottleNeckUnit
                    (SizeT.mul outSize (expansionFactor BottleNeckKind))
                    outSize 1 1 false outSize
                    (strided (inputWidth st) stride)
                    (strided (inputHeight st) stride)) as Hu.
      rewrite !strided_one in Hu. apply Hu; auto; lia.
    + constructor; [apply bottleNeckUnit_merge; auto; lia|].
      apply Forall_forall. intros u Hu. apply repeat_spec in Hu. subst u.
      pose proof (bottleNeckUnit_merge
                    (SizeT.mul outSize (expansionFactor BottleNeckKind))
                    outSize 1 1 false outSize
                    (strided (inputWidth st) stride)
                    (strided (inputHeight st) stride)) as Hm.
      rewrite !strided_one in Hm. apply Hm; auto; lia.
Qed.

Lemma MakeLayer_stage_passes_shape_inference_witness :
  exists st' units,
    MakeLayer "basicblock" 128 2 2 stage1State = Some (tt, st')
    /\ resNet st' = resNet stage1State ++ units
    /\ outShape (Sequential units) (56, 56)
       = Some (inputWidth st', inputHeight st').
Proof.
  destruct (MakeLayer_stage_passes_shape_inference "basicblock" 128 2 2
              stage1State) as (st' & units & Hrun & Hnet & Hshape & _);
    [unfold shapeOK; cbn; lia | lia | discriminate |].
  exists st', units. repeat split; assumption.
Defined.

(** *** Channel inference over a stage *)

Lemma channelsThrough_cons (u : Layer) (units : list Layer) (c c' : Z) :
  channelsThrough u c = Some c' ->
  channelsThrough (Sequential (u :: units)) c
  = channelsThrough (Sequential units) c'.
Proof.
  intros H. cbn [channelsThrough fold_left option_bind]. rewrite H.
  reflexivity.
Qed.

Ltac channel_steps :=
  repeat (progress (cbn -[Z.eqb SizeT.mul]; rewrite ?Z.eqb_refl)).

Lemma channelsThrough_basicUnit (inSize outSize sW sH : Z)
    (downSample : bool) (w h w1 h1 : Z) :
  downSample = true \/ outSize = inSize ->
  channelsThrough (basicUnit inSize outSize sW sH downSample w h w1 h1)
    inSize = Some outSize.
Proof.
  intros Hds. unfold basicUnit.
  destruct downSample.
  - channel_steps. reflexivity.
  - destruct Hds as [Hds | ->]; [discriminate|].
    channel_steps. reflexivity.
Qed.

Lemma channelsThrough_bottleNeckUnit (inSize outSize sW sH : Z)
    (downSample : bool) (width w h w1 h1 w2 h2 : Z) :
  downSample = true \/ SizeT.mul outSize bottleNeckExpansion = inSize ->
  channelsThrough
    (bottleNeckUnit inSize outSize sW sH downSample width w h w1 h1 w2 h2)
    inSize = Some (SizeT.mul outSize bottleNeckExpansion).
Proof.
  intros Hds. unfold bottleNeckUnit. cbv zeta.
  destruct downSample.
  - channel_steps. reflexivity.
  - destruct Hds as [Hds | <-]; [discriminate|].
    channel_steps. reflexivity.
Qed.

(** A unit built from the channel count it receives outputs the expanded
    count, when it has a projection or its input already is the expanded
    count. *)
Lemma receives_channelsThrough (kind : BlockKind)
    (inSize outSize stride : Z) (downSample : bool) (u : Layer) :
  receives kind inSize outSize stride downSample u ->
  downSample = true \/ unitChannels kind outSize = inSize ->
  channelsThrough u inSize = Some (unitChannels kind outSize).
Proof.
  destruct kind; cbn [receives unitChannels].
  - intros (w & h & w1 & h1 & ->) Hds.
    now apply channelsThrough_basicUnit.
  - intros (width & w & h & w1 & h1 & w2 & h2 & _ & ->) Hds.
    now apply channelsThrough_bottleNeckUnit.
Qed.

(** X13.  The units of a stage pass channel inference end to end, whenever
    [MakeLayer] returns for a [size_t] [outSize]: taken as one sequence and
    fed the tracked channel count the stage was entered with, every
    convolution and normalization receives the channel count it was
    constructed for, the two branches of every merge output the same count
    (an identity shortcut occurs only where input and output counts are
    equal), and the sequence outputs the tracked count the stage leaves. *)
Theorem MakeLayer_stage_passes_channel_inference (block : string)
    (outSize numBlocks stride : Z) (st st' : ResNetState) :
  SizeT.in_range outSize ->
  MakeLayer block outSize numBlocks stride st = Some (tt, st') ->
  exists units,
    resNet st' = resNet st ++ units
    /\ channelsThrough (Sequential units) (downSampleInSize st)
       = Some (downSampleInSize st').
Proof.
  intros Hout H. apply MakeLayer_inv in H. cbv zeta in H.
  destruct H as (first & rest & Hnet & Hfirst & _ & Hall & Htr & _).
  exists (first :: rest). split; [exact Hnet|].
  rewrite Htr.
  set (kind := kindOf block) in *.
  set (expanded := SizeT.mul outSize (expansionFactor kind)) in *.
  assert (Hu : unitChannels kind outSize = expanded).
  { unfold expanded. destruct kind; cbn [unitChannels expansionFactor];
      [|reflexivity].
    unfold basicBlockExpansion. symmetry.
    now apply SizeTFacts.mul_one. }
  assert (Hu1 : unitChannels kind (firstOutSize kind outSize) = expanded).
  { destruct kind; cbn [unitChannels firstOutSize]; [reflexivity | exact Hu]. }
  rewrite (channelsThrough_cons first rest _ expanded).
  - clear Hfirst Hnet.
    induction Hall as [|u rest Hrec _ IH]; [reflexivity|].
    rewrite (channelsThrough_cons u rest _ expanded); [exact IH|].
    transitivity (Some (unitChannels kind outSize)); [|now rewrite Hu].
    apply (receives_channelsThrough _ _ _ _ _ _ Hrec).
    right. exact Hu.
  - transitivity (Some (unitChannels kind (firstOutSize kind outSize)));
      [|now rewrite Hu1].
    apply (receives_channelsThrough _ _ _ _ _ _ Hfirst).
    rewrite Hu1. unfold firstDownSample. fold expanded.
    destruct (stride =? 1); [|left; reflexivity].
    destruct (downSampleInSize st =? expanded) eqn:E;
      [|left; reflexivity].
    apply Z.eqb_eq in E. right. congruence.
Qed.

Lemma MakeLayer_stage_passes_channel_inference_witness :
  exists st' units,
    MakeLayer "bottleneck" 64 3 1 stage1State = Some (tt, st')
    /\ resNet st' = resNet stage1State ++ units
    /\ channelsThrough (Sequential units) 64 = Some 256.
Proof.
  destruct (MakeLayer "bottleneck" 64 3 1 stage1State)
    as [[[] st']|] eqn:E; [|exfalso; vm_compute in E; discriminate].
  assert (Hout : SizeT.in_range 64)
    by (unfold SizeT.in_range, SizeT.modulus; lia).
  destruct (MakeLayer_stage_passes_channel_inference "bottleneck" 64 3 1
              stage1State st' Hout E) as (units & Hnet & Hch).
  exists st', units. split; [reflexivity|]. split; [exact Hnet|].
  assert (Htr : downSampleInSize st' = 256).
  { apply MakeLayer_inv in E. cbv zeta in E.
    destruct E as (_ & _ & _ & _ & _ & _ & Htr & _). exact Htr. }
  rewrite <- Htr. exact Hch.
Defined.

(** X14.  A stage that follows a stage of the same kind with the same
    [outSize] and has stride 1 builds no projection: whenever both
    [MakeLayer] calls return, every unit of the second stage, the first
    one included, comes from a block that received the expanded channel
    count, the stride 1 and no [downSample]. *)
Theorem MakeLayer_repeated_stage_has_no_projection (block : string)
    (outSize numBlocks numBlocks' stride : Z) (st st1 st2 : ResNetState) :
  MakeLayer block outSize numBlocks stride st = Some (tt, st1) ->
  MakeLayer block outSize numBlocks' 1 st1 = Some (tt, st2) ->
  exists units,
    resNet st2 = resNet st1 ++ units
    /\ units <> []
    /\ Forall
         (fun u =>
            exists outSize',
              receives (kindOf block)
                (SizeT.mul outSize (expansionFactor (kindOf block)))
                outSize' 1 false u)
         units.
Proof.
  intros H1 H2.
  apply MakeLayer_inv in H1, H2. cbv zeta in H1, H2.
  destruct H1 as (_ & _ & _ & _ & _ & _ & Htr & _).
  destruct H2 as (first & rest & Hnet & Hfirst & _ & Hall & _).
  exists (first :: rest). split; [exact Hnet|]. split; [discriminate|].
  constructor.
  - exists (firstOutSize (kindOf block) outSize).
    rewrite Htr in Hfirst. unfold firstDownSample in Hfirst.
    rewrite !Z.eqb_refl in Hfirst. exact Hfirst.
  - eapply Forall_impl; [|exact Hall]. cbn beta. eauto.
Qed.

Lemma MakeLayer_repeated_stage_has_no_projection_witness :
  exists st1 st2 units,
    MakeLayer "basicblock" 128 2 2 stage1State = Some (tt, st1)
    /\ MakeLayer "basicblock" 128 2 1 st1 = Some (tt, st2)
    /\ resNet st2 = resNet st1 ++ units
    /\ units <> [].
Proof.
  destruct (MakeLayer "basicblock" 128 2 2 stage1State)
    as [[[] st1]|] eqn:E1; [|exfalso; vm_compute in E1; discriminate].
  destruct (MakeLayer_defined "basicblock" 128 2 1 st1)
    as (st2 & _ & E2 & _).
  { destruct (MakeLayer_defined "basicblock" 128 2 2 stage1State)
      as (st1' & _ & E1' & W & H & _);
      [unfold shapeOK; cbn; lia | lia | discriminate |].
    rewrite E1 in E1'. injection E1' as <-.
    unfold shapeOK. rewrite W, H. cbn. lia. }
  { lia. }
  { discriminate. }
  destruct (MakeLayer_repeated_stage_has_no_projection "basicblock" 128 2 2 2
              stage1State st1 st2 E1 E2) as (units & Hnet & Hne & _).
  exists st1, st2, units.
  split; [reflexivity|]. split; [exact E2|]. split; assumption.
Defined.

(** ** [ResNetConfig] *)

Lemma receives_mainPathConvolutions (kind : BlockKind)
    (inSize outSize stride : Z) (downSample : bool) (u : Layer) :
  receives kind inSize outSize stride downSample u ->
  mainPathConvolutions u
  = match kind with BasicKind => 2 | BottleNeckKind => 3 end.
Proof.
  destruct kind; cbn [receives].
  - intros (w & h & w1 & h1 & ->). reflexivity.
  - intros (width & w & h & w1 & h1 & w2 & h2 & _ & ->). reflexivity.
Qed.

(** X15.  Every row of [ResNetConfig] names one block kind, has four
    counts of at least 1 (so the loop of [MakeLayer] never wraps for it),
    and the version is the depth the row adds up to: two layers outside the
    stages plus, for each of the counted blocks, the convolutions on the
    main path of a unit of the row's kind. *)
Theorem ResNetConfig_version_is_depth (version : Z) (block : string)
    (n0 n1 n2 n3 : Z) (others : list (string * (Z * Z * Z * Z))) :
  map_find version ResNetConfig = Some ((block, (n0, n1, n2, n3)) :: others)
  ->
  others = []
  /\ Forall (fun n => 1 <= n /\ Z.of_nat (loopCount n) = n - 1)
       [n0; n1; n2; n3]
  /\ (forall inSize outSize stride downSample u,
         receives (kindOf block) inSize outSize stride downSample u ->
         version = 2 + mainPathConvolutions u * (n0 + n1 + n2 + n3)).
Proof.
  intros H.
  assert (Hothers : others = []).
  { revert H. unfold ResNetConfig. cbn [map_find].
    repeat match goal with
           | |- context [?k =? version] =>
               destruct (k =? version);
                 [intros E; injection E as _ _ _ _ _ <-; reflexivity|]
           end.
    discriminate. }
  split; [exact Hothers|].
  apply map_find_supported in H. cbn [In] in H.
  destruct H as [E|[E|[E|[E|[E|[]]]]]];
    injection E as <- <- <- <- <- <-;
    (split; [repeat constructor; vm_compute; congruence|]);
    intros inSize outSize stride downSample u Hu;
    rewrite (receives_mainPathConvolutions _ _ _ _ _ _ Hu);
    reflexivity.
Qed.

Lemma ResNetConfig_version_is_depth_witness :
  152 = 2 + mainPathConvolutions
              (bottleNeckUnit 64 64 1 1 true 64 56 56 56 56 56 56)
            * (3 + 8 + 36 + 3).
Proof.
  destruct (ResNetConfig_version_is_depth 152 "bottleneck" 3 8 36 3 []
              eq_refl) as (_ & _ & Hdepth).
  apply (Hdepth 64 64 1 true).
  cbn [kindOf String.eqb receives]. exists 64, 56, 56, 56, 56, 56, 56.
  split; reflexivity.
Defined.

(** ** Why the projection matches the main path *)

(** X16.  A kernel of 3 with padding 1 and a kernel of 1 with padding 0 give
    the same output size for every input size and every stride, also where
    the difference wraps or the quotient is rounded: the 1x1 projection of
    a shortcut and the strided 3x3 convolution of a main path always agree
    on the shape. *)
Theorem ConvOutSize_kernel3_pad1_is_kernel1_pad0 (size s : Z) :
  ConvOutSize size 3 s 1 = ConvOutSize size 1 s 0.
Proof.
  unfold ConvOutSize. rewrite !SizeTFacts.sub_add_mul.
  replace (size - 3 + 2 * 1) with (size - 1 + 2 * 0) by ring.
  reflexivity.
Qed.

(** X17.  [BottleNeck] does not guard its width: for [size_t] arguments with
    [baseWidth * outSize < 64] the width truncates to 0, and in the exact
    range the call still returns, appending a unit whose inner
    convolutions have 0 channels. *)
Theorem BottleNeck_width_truncates_to_zero (inSize outSize sW sH : Z)
    (downSample : bool) (baseWidth groups : Z) (st : ResNetState) :
  SizeT.in_range baseWidth -> SizeT.in_range outSize ->
  baseWidth * outSize < 64 ->
  shapeOK st -> 1 <= sW -> 1 <= sH ->
  bottleNeckWidth baseWidth outSize groups = Some 0
  /\ exists st',
      BottleNeck inSize outSize sW sH downSample baseWidth groups st
      = Some (tt, st')
      /\ resNet st' =
         resNet st ++
         [bottleNeckUnit inSize outSize sW sH downSample 0
            (inputWidth st) (inputHeight st)
            (inputWidth st) (inputHeight st)
            (strided (inputWidth st) sW) (strided (inputHeight st) sH)].
Proof.
  intros Hb Ho Hsmall Hok HsW HsH. unfold SizeT.in_range in Hb, Ho.
  assert (Hwidth : bottleNeckWidth baseWidth outSize groups = Some 0).
  { rewrite bottleNeckWidth_spec by lia.
    rewrite Z.div_small by nia. reflexivity. }
  split; [exact Hwidth|].
  eexists. split; [apply (BottleNeck_defined _ _ _ _ _ _ _ 0); assumption|].
  reflexivity.
Qed.

Lemma BottleNeck_width_truncates_to_zero_witness :
  bottleNeckWidth 1 63 1 = Some 0
  /\ exists st', BottleNeck 64 63 1 1 true 1 1 stage1State = Some (tt, st').
Proof.
  destruct (BottleNeck_width_truncates_to_zero 64 63 1 1 true 1 1
              stage1State) as (Hw & st' & Hrun & _);
    try (unfold SizeT.in_range, SizeT.modulus; lia);
    [unfold shapeOK; cbn; lia|].
  split; [exact Hw|]. exists st'. exact Hrun.
Defined.
